(** * logit: the duration rolling file and the default file name generator

    A shallow embedding of [DurationRollingFile] (package [files]) and of
    [nextFilename] (package [logit]), with the parts of the Go runtime they
    call ([time], [strconv], [path], [math/rand], [os], [sync]) modelled by
    their documented behaviour. *)

From Stdlib Require Import ZArith String Ascii List DecimalString Lia.
From Stdlib Require Import DecimalPos DecimalZ.
From Stdlib.Strings Require Import Byte.
From stdpp Require Import base option gmap list.

Local Open Scope Z_scope.

(** ** Strings *)

Module strings.

(** [strings.Join]. *)
Fixpoint Join (elems : list string) (sep : string) : string :=
  match elems with
  | [] => EmptyString
  | [e] => e
  | e :: rest => String.append e (String.append sep (Join rest sep))
  end.

(** The fields of [s] between the occurrences of the byte [sep]. *)
Fixpoint fields (sep : ascii) (s : string) : list string :=
  match s with
  | EmptyString => [EmptyString]
  | String c rest =>
      if Ascii.eqb c sep then EmptyString :: fields sep rest
      else match fields sep rest with
           | [] => [String c EmptyString]
           | f :: fs => String c f :: fs
           end
  end.

Fixpoint Repeat (s : string) (count : nat) : string :=
  match count with
  | O => EmptyString
  | S k => String.append s (Repeat s k)
  end.

End strings.

(** ** strconv *)

Module strconv.

(** [strconv.Itoa]: the decimal representation, with a leading minus sign
    for negative numbers. *)
Definition Itoa (i : Z) : string := NilZero.string_of_int (Z.to_int i).

End strconv.

(** ** time *)

Module time.

(** [time.Duration] is an int64 count of nanoseconds. *)
Definition Duration := Z.

Definition Nanosecond : Duration := 1.
Definition Microsecond : Duration := 1000 * Nanosecond.
Definition Millisecond : Duration := 1000 * Microsecond.
Definition Second : Duration := 1000 * Millisecond.
Definition Minute : Duration := 60 * Second.
Definition Hour : Duration := 60 * Minute.

Definition minDuration : Duration := - 2 ^ 63.
Definition maxDuration : Duration := 2 ^ 63 - 1.

(** A [time.Time]: an instant, counted in nanoseconds since
    January 1, year 1, 00:00:00 UTC (the zero [Time]), and the offset in
    seconds east of UTC that its location has at that instant. *)
Record Time := mkTime { instant : Z; zoneOffset : Z }.

(** The zero value of [time.Time]. *)
Definition zero : Time := {| instant := 0; zoneOffset := 0 |}.

(** [t.Add(d)]. *)
Definition Add (t : Time) (d : Duration) : Time :=
  {| instant := instant t + d; zoneOffset := zoneOffset t |}.

(** [t.Sub(u)]: the duration [t - u], saturated to the range of
    [Duration]. *)
Definition Sub (t u : Time) : Duration :=
  let d := instant t - instant u in
  if d <? minDuration then minDuration
  else if maxDuration <? d then maxDuration
  else d.

(** [time.Unix(sec, nsec)] in the location with offset [off]. *)
Definition Unix (sec nsec off : Z) : Time :=
  {| instant := (sec + 62135596800) * Second + nsec; zoneOffset := off |}.

(** Seconds since the zero time, on the wall clock of [t]'s location. *)
Definition abs (t : Time) : Z := instant t / Second + zoneOffset t.

(** The date of the day [doe] of an era: the eras are the periods of 400
    years, of 146097 days, that start on March 1 of the years divisible by
    400. The result is the year within the era, the month and the day. *)
Definition civil (doe : Z) : Z * Z * Z :=
  let yoe := (doe - doe / 1460 + doe / 36524 - doe / 146096) / 365 in
  let doy := doe - (365 * yoe + yoe / 4 - yoe / 100) in
  let mp := (5 * doy + 2) / 153 in
  let d := doy - (153 * mp + 2) / 5 + 1 in
  let m := if mp <? 10 then mp + 3 else mp - 9 in
  (yoe + (if m <=? 2 then 1 else 0), m, d).

(** [t.Date()]: year, month and day of [t], by the proleptic Gregorian
    calendar. January 1 of year 1 is day 306 of the era of year 0. *)
Definition Date (t : Time) : Z * Z * Z :=
  let z := abs t / 86400 + 306 in
  let '(y, m, d) := civil (z mod 146097) in
  (y + z / 146097 * 400, m, d).

(** [t.Clock()]: hour, minute and second within the day. *)
Definition Clock (t : Time) : Z * Z * Z :=
  let s := abs t mod 86400 in
  (s / 3600, (s mod 3600) / 60, s mod 60).

(** [appendInt]: decimal digits of [x], padded with zeros on the left to
    [width] digits, after the sign. *)
Definition appendInt (x : Z) (width : nat) : string :=
  let digits := NilZero.string_of_uint (N.to_uint (Z.abs_N x)) in
  String.append (if x <? 0 then "-" else EmptyString)
    (String.append (strings.Repeat "0" (width - String.length digits)) digits).

(** [t.Format(layout)] for layouts made of the reference-time elements
    2006 (year), 01 (month), 02 (day), 15 (hour), 04 (minute),
    05 (second) and literal text. [skip] counts the bytes of an element
    still to be passed over. *)
Fixpoint formatFrom (skip : nat) (layout : string) (t : Time) : string :=
  match layout with
  | EmptyString => EmptyString
  | String c rest =>
      match skip with
      | S k => formatFrom k rest t
      | O =>
          let '(year, month, day) := Date t in
          let '(hour, min, sec) := Clock t in
          if String.prefix "2006" layout then
            String.append (appendInt year 4) (formatFrom 3 rest t)
          else if String.prefix "01" layout then
            String.append (appendInt month 2) (formatFrom 1 rest t)
          else if String.prefix "02" layout then
            String.append (appendInt day 2) (formatFrom 1 rest t)
          else if String.prefix "15" layout then
            String.append (appendInt hour 2) (formatFrom 1 rest t)
          else if String.prefix "04" layout then
            String.append (appendInt min 2) (formatFrom 1 rest t)
          else if String.prefix "05" layout then
            String.append (appendInt sec 2) (formatFrom 1 rest t)
          else String c (formatFrom 0 rest t)
      end
  end.

Definition Format (t : Time) (layout : string) : string :=
  formatFrom 0 layout t.

End time.

(** ** path *)

Module path.

Definition rooted (p : string) : bool := String.prefix "/" p.

(** One element of the path processed by [Clean]; [out] holds the
    elements kept so far, the last one first. *)
Definition cleanStep (isRooted : bool) (out : list string) (elem : string)
  : list string :=
  if String.eqb elem EmptyString then out
  else if String.eqb elem "." then out
  else if String.eqb elem ".." then
    match out with
    | top :: below => if String.eqb top ".." then elem :: out else below
    | [] => if isRooted then [] else [elem]
    end
  else elem :: out.

(** [path.Clean]: the shortest path name equivalent to [p] by purely
    lexical processing. *)
Definition Clean (p : string) : string :=
  if String.eqb p EmptyString then "."%string
  else
    let kept := fold_left (cleanStep (rooted p)) (strings.fields "/" p) [] in
    let out := String.append (if rooted p then "/" else EmptyString)
                 (strings.Join (rev kept) "/") in
    if String.eqb out EmptyString then "."%string else out.

(** [path.Join]: the elements from the first non-empty one on, separated
    by slashes, cleaned; the empty string when all are empty. *)
Fixpoint Join (elem : list string) : string :=
  match elem with
  | [] => EmptyString
  | e :: rest =>
      if String.eqb e EmptyString then Join rest
      else Clean (strings.Join elem "/")
  end.

End path.

(** ** math/rand *)

Module rand.

(** A value of the source that no loop of [Int31n] or [Int63n] draws
    again: one in the lower half of the 63 bits. *)
Definition settles (v : Z) : Prop := v mod 2 ^ 63 < 2 ^ 62.

(** A generator [*rand.Rand]: the sequence of the values that its source
    yields, one for each call of [Source.Int63], and how many of them
    have been drawn. The source is one on which the loops of [Int31n] and
    [Int63n] end, as they do on the sources that [rand.NewSource] makes:
    any [patience] values in a row hold one that settles. *)
Record Rand := mkRand {
  source : nat -> Z;
  drawn : nat;
  patience : nat;
  fair : forall k : nat, exists j : nat,
    (j < patience)%nat /\ settles (source (k + j)%nat)
}.

(** The generator after one value of the source is taken. *)
Definition advance (r : Rand) : Rand :=
  {| source := source r; drawn := S (drawn r);
     patience := patience r; fair := fair r |}.

(** [r.Int63()]: the next value of the source, a non-negative integer of
    63 bits. *)
Definition Int63 (r : Rand) : Z * Rand :=
  (source r (drawn r) mod 2 ^ 63, advance r).

(** [r.Int31()]: [int32(r.Int63() >> 32)]. *)
Definition Int31 (r : Rand) : Z * Rand :=
  let '(v, r') := Int63 r in (Z.shiftr v 32, r').

(** The loop [for v > max { v = draw() }], with [v] the value in hand.
    It draws at most [fuel] values; with [patience r] for fuel it ends
    before they are used up, on a value that is not above [max] (lemmas
    [Int31n_loop_ends] and [Int63n_loop_ends]). *)
Fixpoint redraw (draw : Rand -> Z * Rand) (max : Z) (fuel : nat)
    (v : Z) (r : Rand) : Z * Rand :=
  if v >? max then
    match fuel with
    | O => (v, r)
    | S fuel' => let '(v', r') := draw r in redraw draw max fuel' v' r'
    end
  else (v, r).

(** [r.Int31n(n)], for [0 < n < 2 ^ 31]: a power of two masks the value
    drawn; any other [n] reduces the first value drawn that is not above
    [max], the last one of a whole number of runs of [n] values. *)
Definition Int31n (n : Z) (r : Rand) : Z * Rand :=
  if Z.land n (n - 1) =? 0 then
    let '(v, r') := Int31 r in (Z.land v (n - 1), r')
  else
    let max := 2 ^ 31 - 1 - (2 ^ 31) mod n in
    let '(v, r') := Int31 r in
    let '(v, r') := redraw Int31 max (patience r) v r' in
    (Z.rem v n, r').

(** [r.Int63n(n)], for [0 < n < 2 ^ 63]. *)
Definition Int63n (n : Z) (r : Rand) : Z * Rand :=
  if Z.land n (n - 1) =? 0 then
    let '(v, r') := Int63 r in (Z.land v (n - 1), r')
  else
    let max := 2 ^ 63 - 1 - (2 ^ 63) mod n in
    let '(v, r') := Int63 r in
    let '(v, r') := redraw Int63 max (patience r) v r' in
    (Z.rem v n, r').

(** [r.Intn(n)], for [0 < n < 2 ^ 63] (it panics when [n <= 0]): a number
    in the half-open interval [[0, n)], and the generator after the
    values that it took. *)
Definition Intn (n : Z) (r : Rand) : Z * Rand :=
  if n <=? 2 ^ 31 - 1 then Int31n n r else Int63n n r.

End rand.


(** ** Errors, outcomes and the process state *)

(** Go [error] values: the two sentinel errors of package [os] that a
    method of [*os.File] reports by itself, an error number reported by the
    operating system, and the text errors made by [errors.New]. *)
Inductive error : Type :=
| ErrInvalid
| ErrClosed
| Errno (code : nat)
| errorString (text : string).

(** How a call ends: it returns, it panics, or it waits for ever on a
    mutex that nobody releases. *)
Inductive Outcome (A : Type) : Type :=
| Done (a : A)
| Panic (v : error)
| Blocked.

Arguments Done {A} a.
Arguments Panic {A} v.
Arguments Blocked {A}.

(** The identity of an [os.File] object; a [*os.File] is an
    [option File], [None] being the nil pointer. *)
Definition File := nat.

Definition isNil {A : Type} (p : option A) : bool :=
  match p with
  | None => true
  | Some _ => false
  end.

(** What is known of an [os.File]: the name it was opened with, whether it
    has been closed, and the bytes written through it. *)
Record FileState := mkFileState {
  fileName : string;
  closed : bool;
  written : list byte
}.

(** The calls that reach the operating system, with their results. *)
Inductive Call : Type :=
| CreateCall (name : string) (result : File + error)
| WriteCall (f : File) (b : list byte) (n : nat) (err : option error)
| CloseCall (f : File) (err : option error).

(** The behaviour of the operating system, which the program does not
    control. Each field is asked at the number of calls made so far:
    whether creating the named file fails; whether a write fails, and
    after how many bytes; whether a close reports an error; and how long
    the call takes, in nanoseconds. *)
Record Kernel := mkKernel {
  createFails : nat -> string -> option error;
  writeFails : nat -> list byte -> option (nat * error);
  closeFails : nat -> option error;
  latency : nat -> N
}.

Record World := mkWorld {
  clock : time.Time;            (* what time.Now() reads *)
  random : rand.Rand;           (* the package variable [random] *)
  files : gmap File FileState;  (* the os.File objects made so far *)
  nextFile : File;              (* the next os.File object to be made *)
  calls : list Call;            (* the calls made, the latest first *)
  kernel : Kernel
}.

Definition set_random (r : rand.Rand) (w : World) : World :=
  {| clock := clock w; random := r; files := files w;
     nextFile := nextFile w; calls := calls w; kernel := kernel w |}.

(** The world when the clock reads [t], nothing else having changed. *)
Definition atTime (t : time.Time) (w : World) : World :=
  {| clock := t; random := random w; files := files w;
     nextFile := nextFile w; calls := calls w; kernel := kernel w |}.

Definition IO (A : Type) : Type := World -> Outcome A * World.

#[global] Instance IO_ret : MRet IO := fun A a w => (Done a, w).

#[global] Instance IO_bind : MBind IO := fun A B f m w =>
  match m w with
  | (Done a, w') => f a w'
  | (Panic v, w') => (Panic v, w')
  | (Blocked, w') => (Blocked, w')
  end.

Definition panic {A : Type} (v : error) : IO A := fun w => (Panic v, w).

(** The process goes on when the clock reads [t]. *)
Definition resumeAt (t : time.Time) : IO unit := fun w => (Done tt, atTime t w).

(** The world after a call to the operating system: the call is recorded
    and the clock has moved on by the time the call took. *)
Definition afterCall (c : Call) (fs : gmap File FileState) (next : File)
    (w : World) : World :=
  {| clock := time.Add (clock w) (Z.of_N (latency (kernel w) (length (calls w))));
     random := random w;
     files := fs;
     nextFile := next;
     calls := c :: calls w;
     kernel := kernel w |}.

Module time_io.

(** [time.Now()]. *)
Definition Now : IO time.Time := fun w => (Done (clock w), w).

End time_io.

(** ** os: the methods of [*os.File] *)

Module os.

(** [f.Write(b)]. On a nil receiver it reports [ErrInvalid], on a closed
    file [ErrClosed], both without writing. Otherwise the bytes are
    handed to the operating system, which takes all of them, or fewer
    and reports an error. *)
Definition Write (f : option File) (b : list byte) : IO (Z * option error) :=
  fun w =>
    match f with
    | None => (Done (0, Some ErrInvalid), w)
    | Some fd =>
        match files w !! fd with
        | None => (Done (0, Some ErrInvalid), w)
        | Some st =>
            if closed st then (Done (0, Some ErrClosed), w)
            else
              let '(n, err) :=
                match writeFails (kernel w) (length (calls w)) b with
                | None => (length b, None)
                | Some (k, e) => (Nat.min k (length b), Some e)
                end in
              let st' := {| fileName := fileName st;
                            closed := false;
                            written := written st ++ take n b |} in
              (Done (Z.of_nat n, err),
               afterCall (WriteCall fd b n err) (<[fd := st']> (files w))
                 (nextFile w) w)
        end
    end.

(** [f.Close()]. On a nil receiver it reports [ErrInvalid], on a file
    closed before [ErrClosed]. Otherwise the file is closed, also when
    the operating system reports an error. *)
Definition Close (f : option File) : IO (option error) :=
  fun w =>
    match f with
    | None => (Done (Some ErrInvalid), w)
    | Some fd =>
        match files w !! fd with
        | None => (Done (Some ErrInvalid), w)
        | Some st =>
            if closed st then (Done (Some ErrClosed), w)
            else
              let err := closeFails (kernel w) (length (calls w)) in
              let st' := {| fileName := fileName st;
                            closed := true;
                            written := written st |} in
              (Done err,
               afterCall (CloseCall fd err) (<[fd := st']> (files w))
                 (nextFile w) w)
        end
    end.

End os.

(** ** sync.Mutex *)

Module sync.

Record Mutex := mkMutex { locked : bool }.

(** [m.Lock()]: takes the mutex when it is free, and waits otherwise. *)
Definition Lock (m : Mutex) : IO Mutex := fun w =>
  if locked m then (Blocked, w) else (Done {| locked := true |}, w).

(** [m.Unlock()]: releases the mutex; unlocking a free mutex is a fatal
    error. *)
Definition Unlock (m : Mutex) : IO Mutex := fun w =>
  if locked m then (Done {| locked := false |}, w)
  else (Panic (errorString "sync: unlock of unlocked mutex"), w).

End sync.

(** ** Package logit: the default file name *)

Module logit.

(** [PrefixOfLogFile]. *)
Definition PrefixOfLogFile : string := ".log".

(** [nextFilename directory now], run on the state of the package's
    random generator: the name and the generator after the draw. *)
Definition nextFilename (directory : string) (now : time.Time)
    (random : rand.Rand) : string * rand.Rand :=
  let '(n, random') := rand.Intn 1000 random in
  let name :=
    String.append (time.Format now "20060102-150405")
      (String.append "-" (String.append (strconv.Itoa n) PrefixOfLogFile)) in
  (path.Join [directory; name], random').

End logit.

(** ** Package files: the duration rolling file *)

Module files.

(** Modelled from the spec: the interface [NameGenerator] is not among
    the sources. Its method [NextName] maps a directory and the current
    time to the path of the next file; a generator may draw from the
    shared random generator, as the default one does, and does nothing
    else to the process. *)
Record NameGenerator := mkNameGenerator {
  NextName : string -> time.Time -> rand.Rand -> string * rand.Rand
}.

(** Modelled from the spec: [DefaultNameGenerator] is not among the
    sources. The default strategy formats the time as YYYYMMDD-HHMMSS,
    followed by a random integer from 0 to 999 and a fixed suffix, and
    joins it to the directory: it is [logit.nextFilename]. *)
Definition DefaultNameGenerator : NameGenerator :=
  {| NextName := logit.nextFilename |}.

(** A call of [g.NextName(directory, now)] in the process. *)
Definition callNextName (g : NameGenerator) (directory : string)
    (now : time.Time) : IO string := fun w =>
  let '(name, random') := NextName g directory now (random w) in
  (Done name, set_random random' w).

(** Modelled from the spec: [CreateFileOf] is not among the sources. It
    creates or opens the file at the path for writing, and returns the
    new file, or the error of the operating system and no file. *)
Definition CreateFileOf (filePath : string) : IO (option File * option error) :=
  fun w =>
    match createFails (kernel w) (length (calls w)) filePath with
    | Some e =>
        (Done (None, Some e),
         afterCall (CreateCall filePath (inr e)) (files w) (nextFile w) w)
    | None =>
        let fd := nextFile w in
        let st := {| fileName := filePath; closed := false; written := [] |} in
        (Done (Some fd, None),
         afterCall (CreateCall filePath (inl fd)) (<[fd := st]> (files w))
           (S fd) w)
    end.

Record DurationRollingFile := mkDurationRollingFile {
  file : option File;
  directory : string;
  lastTime : time.Time;
  duration : time.Duration;
  nameGenerator : NameGenerator;
  mu : sync.Mutex
}.

Definition minDuration : time.Duration := 1 * time.Second.

(** [minDuration.String()]. *)
Definition minDuration_String : string := "1s".

(** [NewDurationRollingFile]. *)
Definition NewDurationRollingFile (directory : string)
    (duration : time.Duration) : IO DurationRollingFile :=
  if duration <? minDuration then
    panic (errorString
             (String.append "Duration is smaller than "
                (String.append minDuration_String
                   (String (ascii_of_nat 10) EmptyString))))
  else
    mret {| file := None;
            directory := directory;
            lastTime := time.zero;
            duration := duration;
            nameGenerator := DefaultNameGenerator;
            mu := {| sync.locked := false |} |}.

Definition set_file_lastTime (drf : DurationRollingFile)
    (f : option File) (t : time.Time) : DurationRollingFile :=
  {| file := f; directory := directory drf; lastTime := t;
     duration := duration drf; nameGenerator := nameGenerator drf;
     mu := mu drf |}.

Definition set_nameGenerator (drf : DurationRollingFile)
    (g : NameGenerator) : DurationRollingFile :=
  {| file := file drf; directory := directory drf; lastTime := lastTime drf;
     duration := duration drf; nameGenerator := g; mu := mu drf |}.

Definition set_mu (drf : DurationRollingFile) (m : sync.Mutex)
    : DurationRollingFile :=
  {| file := file drf; directory := directory drf; lastTime := lastTime drf;
     duration := duration drf; nameGenerator := nameGenerator drf; mu := m |}.

(** [drf.rollingToNextFile(now)]. *)
Definition rollingToNextFile (now : time.Time) (drf : DurationRollingFile)
    : IO DurationRollingFile :=
  name ← callNextName (nameGenerator drf) (directory drf) now;
  '(newFile, err) ← CreateFileOf name;
  match err with
  | Some _ => mret drf
  | None =>
      _ ← os.Close (file drf);
      mret (set_file_lastTime drf newFile now)
  end.

(** [drf.ensureFileIsCorrect()]. *)
Definition ensureFileIsCorrect (drf : DurationRollingFile)
    : IO DurationRollingFile :=
  now ← time_io.Now;
  if isNil (file drf) || (time.Sub now (lastTime drf) >=? duration drf)
  then rollingToNextFile now drf
  else mret drf.

(** [drf.Write(p)]: the result of the write, and the rolling file after
    it. *)
Definition Write (p : list byte) (drf : DurationRollingFile)
    : IO ((Z * option error) * DurationRollingFile) :=
  m ← sync.Lock (mu drf);
  drf1 ← ensureFileIsCorrect (set_mu drf m);
  r ← os.Write (file drf1) p;
  m' ← sync.Unlock (mu drf1);
  mret (r, set_mu drf1 m').

(** [drf.Close()]. *)
Definition Close (drf : DurationRollingFile)
    : IO (option error * DurationRollingFile) :=
  m ← sync.Lock (mu drf);
  err ← os.Close (file drf);
  m' ← sync.Unlock m;
  mret (err, set_mu drf m').

(** [drf.SetNameGenerator(newNameGenerator)]. *)
Definition SetNameGenerator (newNameGenerator : NameGenerator)
    (drf : DurationRollingFile) : IO DurationRollingFile :=
  m ← sync.Lock (mu drf);
  let drf1 := set_nameGenerator (set_mu drf m) newNameGenerator in
  m' ← sync.Unlock (mu drf1);
  mret (set_mu drf1 m').

End files.

(** ** What a step of the program did *)

(** The calls made between the world [w] and the later world [w'], the
    latest first. *)
Definition newCalls (w w' : World) : list Call :=
  take (length (calls w') - length (calls w)) (calls w').

Definition isCreate (c : Call) : bool :=
  match c with
  | CreateCall _ _ => true
  | _ => false
  end.

(** A rotation was invoked between [w] and [w']: the first thing a
    rotation does is to ask the operating system for the next file. *)
Definition rotationInvoked (w w' : World) : bool :=
  existsb isCreate (newCalls w w').

(** The file the latest call wrote to, and the bytes given to it. *)
Definition lastWrite (w : World) : option (File * list byte) :=
  match calls w with
  | WriteCall f b _ _ :: _ => Some (f, b)
  | _ => None
  end.

(** The number of files asked for among the calls [l]. *)
Definition creations (l : list Call) : nat :=
  length (List.filter isCreate l).

(** The writes among the calls [l]: the file and the bytes of each. *)
Fixpoint writesOf (l : list Call) : list (File * list byte) :=
  match l with
  | [] => []
  | WriteCall f b _ _ :: rest => (f, b) :: writesOf rest
  | _ :: rest => writesOf rest
  end.

(** Writes made one after the other, each at its time: the order in which
    the callers of [Write] get the mutex. *)
Fixpoint writeEach (ws : list (time.Time * list byte))
    (drf : files.DurationRollingFile) : IO files.DurationRollingFile :=
  match ws with
  | [] => mret drf
  | (t, p) :: rest =>
      _ ← resumeAt t;
      '(_, drf') ← files.Write p drf;
      writeEach rest drf'
  end.

(** The rolling file holds the file [f], which is open in the world [w]
    and was made before. *)
Definition holdsOpen (drf : files.DurationRollingFile) (f : File) (w : World)
    : Prop :=
  files.file drf = Some f
  /\ (exists st, files w !! f = Some st /\ closed st = false)
  /\ (f < nextFile w)%nat.

(** The condition under which a write rolls to the next file. *)
Definition qualifies (drf : files.DurationRollingFile) (now : time.Time) : Prop :=
  files.file drf = None \/ files.duration drf <= time.Sub now (files.lastTime drf).

(** The operating system never refuses to create a file. *)
Definition neverFailsCreate (k : Kernel) : Prop :=
  forall (t : nat) (name : string), createFails k t name = None.

(** The name the generator of [drf] gives for a rotation at [now], and the
    random generator after it. *)
Definition nextName (drf : files.DurationRollingFile) (now : time.Time)
    (w : World) : string * rand.Rand :=
  files.NextName (files.nameGenerator drf) (files.directory drf) now (random w).

(** What the operating system answers to the creation of the next file of
    a rotation at [now]: [None] when the file is created. *)
Definition creationError (drf : files.DurationRollingFile) (now : time.Time)
    (w : World) : option error :=
  createFails (kernel w) (length (calls w)) (nextName drf now w).1.

(** The world after the next file has been created with success. *)
Definition created (name : string) (random' : rand.Rand) (w : World) : World :=
  afterCall (CreateCall name (inl (nextFile w)))
    (<[nextFile w := {| fileName := name; closed := false; written := [] |}]>
       (files w))
    (S (nextFile w)) (set_random random' w).

(** The world after the creation of the next file has failed with [e]. *)
Definition refused (name : string) (random' : rand.Rand) (e : error)
    (w : World) : World :=
  afterCall (CreateCall name (inr e)) (files w) (nextFile w)
    (set_random random' w).

(** The result of a write that the operating system handles at the world
    [w]. *)
Definition kernelWrite (p : list byte) (w : World) : Z * option error :=
  match writeFails (kernel w) (length (calls w)) p with
  | None => (Z.of_nat (length p), None)
  | Some (k, e) => (Z.of_nat (Nat.min k (length p)), Some e)
  end.

(** The year of the era, the month and the day that [time.civil] gives
    are in their ranges. *)
Definition civilInRange (doe : Z) : bool :=
  let '(y, m, d) := time.civil doe in
  (0 <=? y) && (y <=? 400) && (1 <=? m) && (m <=? 12) && (1 <=? d) && (d <=? 31).

(** The check [P] holds of the [count] numbers from [a] on. *)
Fixpoint checkedFrom (P : Z -> bool) (a : Z) (count : nat) : bool :=
  match count with
  | O => true
  | S c => P a && checkedFrom P (a + 1) c
  end.

(** A decimal digit. *)
Definition isDigit (c : ascii) : bool :=
  (48 <=? nat_of_ascii c)%nat && (nat_of_ascii c <=? 57)%nat.

(** A string of exactly [k] decimal digits. *)
Definition digits (k : nat) (s : string) : bool :=
  (String.length s =? k)%nat && forallb isDigit (list_ascii_of_string s).

(** The time [t] formatted as YYYYMMDD-HHMMSS. *)
Definition stamp (t : time.Time) : string :=
  let '(year, month, day) := time.Date t in
  let '(hour, min, sec) := time.Clock t in
  String.append (time.appendInt year 4)
    (String.append (time.appendInt month 2)
       (String.append (time.appendInt day 2)
          (String.append "-"
             (String.append (time.appendInt hour 2)
                (String.append (time.appendInt min 2)
                   (time.appendInt sec 2)))))).

(** ** The callers of a rolling file *)

(** The file [f] is open in the world [w]. *)
Definition isOpen (w : World) (f : File) : Prop :=
  exists st, files w !! f = Some st /\ closed st = false.

(** The bytes written through the file [f] in the world [w]. *)
Definition contents (w : World) (f : File) : option (list byte) :=
  written <$> files w !! f.

(** Every file that is open is the one the rolling file holds. *)
Definition onlyHeldOpen (drf : files.DurationRollingFile) (w : World) : Prop :=
  forall f, isOpen w f -> files.file drf = Some f.

(** The operating system never fails a write. *)
Definition neverFailsWrite (k : Kernel) : Prop :=
  forall (t : nat) (b : list byte), writeFails k t b = None.

(** A call of a method of a rolling file, made when the clock reads the
    given time. *)
Inductive Op : Type :=
| DoWrite (t : time.Time) (p : list byte)
| DoClose (t : time.Time)
| DoSetNameGenerator (t : time.Time) (g : files.NameGenerator).

(** The calls [ops] made one after the other on a rolling file. *)
Fixpoint run (ops : list Op) (drf : files.DurationRollingFile)
    : IO files.DurationRollingFile :=
  match ops with
  | [] => mret drf
  | DoWrite t p :: rest =>
      _ ← resumeAt t;
      '(_, drf') ← files.Write p drf;
      run rest drf'
  | DoClose t :: rest =>
      _ ← resumeAt t;
      '(_, drf') ← files.Close drf;
      run rest drf'
  | DoSetNameGenerator t g :: rest =>
      _ ← resumeAt t;
      drf' ← files.SetNameGenerator g drf;
      run rest drf'
  end.

(** ** The parts of a path *)

(** The string holds no slash. *)
Fixpoint noSlash (s : string) : bool :=
  match s with
  | EmptyString => true
  | String c rest => negb (Ascii.eqb c "/") && noSlash rest
  end.

(** The last of the elements of a path that the slashes separate. *)
Definition lastElement (p : string) : string :=
  List.last (strings.fields "/" p) EmptyString.

(** A name that is a proper path element: it holds no slash and is none
    of the elements that [Clean] removes. *)
Definition properName (name : string) : Prop :=
  noSlash name = true /\ name <> EmptyString
  /\ name <> "."%string /\ name <> ".."%string.

(** One to three decimal digits. *)
Definition shortNumber (s : string) : bool :=
  (1 <=? String.length s)%nat && (String.length s <=? 3)%nat
  && forallb isDigit (list_ascii_of_string s).

(** The file name that [nextFilename] makes at the time [now] with the
    number [n]. *)
Definition fileNameOf (now : time.Time) (n : Z) : string :=
  String.append (stamp now)
    (String.append "-" (String.append (strconv.Itoa n) ".log")).

(** ** Handlers *)

(** The interface [io.Writer], for writers whose state is a value of
    [W]: [Write] gives the result and the writer after the call. *)
Class Writer (W : Type) : Type :=
  io_Write : list byte -> W -> IO ((Z * option error) * W).

(** A [*DurationRollingFile] is an [io.Writer]. *)
#[global] Instance DurationRollingFile_Writer
    : Writer files.DurationRollingFile :=
  files.Write.

(** A [*os.File] is an [io.Writer]. *)
#[global] Instance File_Writer : Writer (option File) :=
  fun p f => r ← os.Write f p; mret (r, f).

Module handler.

Section Handlers.

(** The type [Log] of package [logit] is not among the sources; the
    handlers only pass a log on to an encoder. *)
Variable Log : Type.

(** Modelled from the spec: the interface [Encoder] is not among the
    sources. An encoder turns a log record into the bytes to write. *)
Record Encoder := mkEncoder { Encode : Log -> list byte }.

Record DefaultHandler (W : Type) := mkDefaultHandler {
  writer : W;
  encoder : Encoder
}.

Arguments writer {W} _.
Arguments encoder {W} _.

(** [NewDefaultHandler]. *)
Definition NewDefaultHandler {W : Type} (writer : W) (encoder : Encoder)
    : DefaultHandler W :=
  {| writer := writer; encoder := encoder |}.

(** [dh.Handle(log)]: the result, and the handler with its writer after
    the call. *)
Definition Handle {W : Type} `{Writer W} (log : Log) (dh : DefaultHandler W)
    : IO (bool * DefaultHandler W) :=
  '(_, wr) ← io_Write (Encode (encoder dh) log) (writer dh);
  mret (true, {| writer := wr; encoder := encoder dh |}).

(** [mh.Handle(log)] of the example program, with the package variable
    [os.Stdout] and the method [Encode] of [logit.TextEncoder()], which is
    not among the sources, as parameters. *)
Definition myHandler_Handle (Stdout : option File)
    (TextEncode : Log -> string -> list byte) (log : Log) : IO bool :=
  _ ← os.Write Stdout (list_byte_of_string "myHandler: ");
  _ ← os.Write Stdout (TextEncode log EmptyString);
  mret true.

End Handlers.

Arguments writer {Log W} _.
Arguments encoder {Log W} _.
Arguments Encode {Log} _ _.
Arguments NewDefaultHandler {Log W} _ _.
Arguments Handle {Log W _} _ _.
Arguments myHandler_Handle {Log} _ _ _.

End handler.

(** The operating system refuses every creation of a file. *)
Definition alwaysFailsCreate (k : Kernel) : Prop :=
  forall (t : nat) (name : string), createFails k t name <> None.

(** ** Sample worlds *)

Module Sample.

(** An operating system that never fails; each call takes a
    microsecond. *)
Definition calm : Kernel :=
  {| createFails := fun _ _ => None;
     writeFails := fun _ _ => None;
     closeFails := fun _ => None;
     latency := fun _ => 1000%N |}.

(** An operating system that refuses to create files. *)
Definition denying : Kernel :=
  {| createFails := fun _ _ => Some (Errno 13);
     writeFails := fun _ _ => None;
     closeFails := fun _ => None;
     latency := fun _ => 1000%N |}.

(** An operating system that creates files, reports an error on every
    close, and takes three bytes of every write before it fails. *)
Definition faulty : Kernel :=
  {| createFails := fun _ _ => None;
     writeFails := fun _ _ => Some (3%nat, Errno 28);
     closeFails := fun _ => Some (Errno 5);
     latency := fun _ => 1000%N |}.

(** An operating system that refuses the creation asked as its call
    number [t], and no other. *)
Definition deniesAt (t : nat) : Kernel :=
  {| createFails := fun tick _ => if (tick =? t)%nat then Some (Errno 13) else None;
     writeFails := fun _ _ => None;
     closeFails := fun _ => None;
     latency := fun _ => 1000%N |}.

(** A random source whose first two draws reduce to 45 and 46: its
    values hold 7045, 7046 and so on in their upper 31 bits, and each of
    them settles. *)
Program Definition draws : rand.Rand :=
  {| rand.source := fun n => Z.shiftl (7045 + Z.of_nat n mod 1000) 32;
     rand.drawn := 0; rand.patience := 1 |}.
Next Obligation.
  intros k. exists 0%nat. split; [lia|]. unfold rand.settles.
  rewrite Z.shiftl_mul_pow2 by lia.
  pose proof (Z.mod_pos_bound (Z.of_nat (k + 0)) 1000 eq_refl).
  rewrite Z.mod_small; lia.
Qed.

(** A random source that has given seven values and whose every value
    holds 45 in its upper 31 bits. *)
Program Definition steady : rand.Rand :=
  {| rand.source := fun _ => Z.shiftl 45 32;
     rand.drawn := 7; rand.patience := 1 |}.
Next Obligation.
  intros k. exists 0%nat. split; [lia|]. reflexivity.
Qed.

(** A random source whose first value holds 2147483000 in its upper 31
    bits, a value that [Intn 1000] draws again, and whose other values
    hold 46 there. *)
Program Definition redrawing : rand.Rand :=
  {| rand.source := fun n =>
       match n with
       | O => Z.shiftl 2147483000 32
       | S _ => Z.shiftl 46 32
       end;
     rand.drawn := 0; rand.patience := 2 |}.
Next Obligation.
  intros k. exists 1%nat. split; [lia|].
  replace (k + 1)%nat with (S k) by lia. reflexivity.
Qed.

(** 2020-03-04 14:52:46 UTC. *)
Definition noon : time.Time := time.Unix 1583333566 0 0.

(** A process that has just started. *)
Definition start (k : Kernel) : World :=
  {| clock := noon; random := draws; files := ∅; nextFile := 0%nat;
     calls := []; kernel := k |}.

(** A rolling file made by [NewDurationRollingFile "logs" time.Second]. *)
Definition fresh : files.DurationRollingFile :=
  {| files.file := None; files.directory := "logs";
     files.lastTime := time.zero; files.duration := time.Second;
     files.nameGenerator := files.DefaultNameGenerator;
     files.mu := {| sync.locked := false |} |}.

(** A process that has file 0 open, with two bytes written to it. *)
Definition running (k : Kernel) : World :=
  {| clock := noon; random := draws;
     files := {[ 0%nat := {| fileName := "logs/old.log"; closed := false;
                             written := [x6f; x6b] |} ]};
     nextFile := 1%nat;
     calls := [WriteCall 0%nat [x6f; x6b] 2%nat None;
               CreateCall "logs/old.log" (inl 0%nat)];
     kernel := k |}.

(** A rolling file that holds file 0 since [ago] before [noon]. *)
Definition holding (ago : time.Duration) : files.DurationRollingFile :=
  {| files.file := Some 0%nat; files.directory := "logs";
     files.lastTime := time.Add noon (- ago); files.duration := time.Second;
     files.nameGenerator := files.DefaultNameGenerator;
     files.mu := {| sync.locked := false |} |}.

(** A name generator that numbers the files by the second. *)
Definition bySecond : files.NameGenerator :=
  {| files.NextName := fun directory now random =>
       (path.Join [directory; strconv.Itoa (time.abs now)], random) |}.

Definition hello : list byte := [x68; x65; x6c; x6c; x6f].

(** An encoder for logs that are strings: the bytes of the string and a
    line feed. *)
Definition lineEncoder : handler.Encoder string :=
  {| handler.Encode := fun log => list_byte_of_string log ++ [x0a] |}.

(** A text encoder for logs that are strings: the time format, then the
    string. *)
Definition textEncode (log : string) (timeFormat : string) : list byte :=
  list_byte_of_string timeFormat ++ list_byte_of_string log.

(** The files of a world with what was written to them, and its calls. *)
Definition snapshot (w : World) : list (File * FileState) * list Call :=
  (map_to_list (files w), calls w).

(** A new rolling file in directory D with a duration of one second; the
    byte A is written to it at [noon], and the byte B [gap] later. The
    result is the two results and the file held at the end. *)
Definition twoWrites (gap : time.Duration)
    : IO ((Z * option error) * (Z * option error) * option File) :=
  drf ← files.NewDurationRollingFile "D" time.Second;
  '(r1, drf) ← files.Write [x41] drf;
  _ ← resumeAt (time.Add noon gap);
  '(r2, drf) ← files.Write [x42] drf;
  mret (r1, r2, files.file drf).

(** Two writes in a row on a rolling file that has held file 0 for two
    seconds. *)
Definition twoLateWrites
    : IO ((Z * option error) * (Z * option error) * option File) :=
  '(r1, drf) ← files.Write [x41] (holding (2 * time.Second));
  '(r2, drf) ← files.Write [x42] drf;
  mret (r1, r2, files.file drf).

End Sample.

(** ** Basic facts *)

Ltac io_unfold := unfold mbind, mret, IO_bind, IO_ret, panic in *.

Section Setters.

Import files.

Lemma set_mu_mu (drf : DurationRollingFile) : set_mu drf (mu drf) = drf.
Proof. by destruct drf. Qed.

Lemma set_mu_set_mu (drf : DurationRollingFile) (m m' : sync.Mutex) :
  set_mu (set_mu drf m) m' = set_mu drf m'.
Proof. reflexivity. Qed.

Lemma set_mu_unlocked (drf : DurationRollingFile) :
  sync.locked (mu drf) = false ->
  set_mu drf {| sync.locked := false |} = drf.
Proof. destruct drf as [? ? ? ? ? [l]]; simpl; intros ->; reflexivity. Qed.

Lemma set_mu_set_file_lastTime (drf : DurationRollingFile) m f t :
  set_mu (set_file_lastTime drf f t) m = set_file_lastTime (set_mu drf m) f t.
Proof. reflexivity. Qed.

Lemma set_mu_set_nameGenerator (drf : DurationRollingFile) m g :
  set_mu (set_nameGenerator drf g) m = set_nameGenerator (set_mu drf m) g.
Proof. reflexivity. Qed.

End Setters.

Section Calls.

Lemma newCalls_app (w w' : World) (l : list Call) :
  calls w' = l ++ calls w -> newCalls w w' = l.
Proof.
  intros H. unfold newCalls. rewrite H, length_app.
  replace (length l + length (calls w) - length (calls w))%nat
    with (length l) by lia.
  by rewrite take_app_length.
Qed.

Lemma creations_app (l1 l2 : list Call) :
  creations (l1 ++ l2) = (creations l1 + creations l2)%nat.
Proof. unfold creations. by rewrite List.filter_app, length_app. Qed.

Lemma writesOf_app (l1 l2 : list Call) :
  writesOf (l1 ++ l2) = writesOf l1 ++ writesOf l2.
Proof.
  induction l1 as [|c l1 IH]; [done|].
  destruct c; simpl; by rewrite IH.
Qed.

Lemma existsb_creations (l : list Call) :
  existsb isCreate l = true <-> (0 < creations l)%nat.
Proof.
  unfold creations. induction l as [|c l IH]; simpl; [split; [done|lia]|].
  destruct (isCreate c); simpl; [split; [lia|done]|exact IH].
Qed.

Lemma newCalls_refl (w : World) : newCalls w w = [].
Proof. by apply newCalls_app. Qed.

Lemma calls_afterCall c fs next w :
  calls (afterCall c fs next w) = c :: calls w.
Proof. reflexivity. Qed.

(** The methods of [*os.File] always return, and make at most one call. *)
Lemma os_Write_returns (f : option File) (b : list byte) (w : World) :
  exists r w', os.Write f b w = (Done r, w').
Proof.
  unfold os.Write. destruct f as [fd|]; [|eauto].
  destruct (files w !! fd) as [st|]; [|eauto].
  destruct (closed st); [eauto|].
  destruct (writeFails _ _ _) as [[k e]|]; eauto.
Qed.

Lemma os_Close_returns (f : option File) (w : World) :
  exists err w', os.Close f w = (Done err, w').
Proof.
  unfold os.Close. destruct f as [fd|]; [|eauto].
  destruct (files w !! fd) as [st|]; [|eauto].
  destruct (closed st); eauto.
Qed.

Lemma os_Write_calls f b w r w' :
  os.Write f b w = (Done r, w') ->
  w' = w \/ exists fd n err, f = Some fd /\ r = (Z.of_nat n, err)
                             /\ calls w' = WriteCall fd b n err :: calls w.
Proof.
  unfold os.Write. destruct f as [fd|]; [|intros [= <- <-]; by left].
  destruct (files w !! fd) as [st|]; [|intros [= <- <-]; by left].
  destruct (closed st); [intros [= <- <-]; by left|].
  destruct (writeFails _ _ _) as [[k e]|]; intros [= <- <-]; right;
    eexists _, _, _; eauto.
Qed.

Lemma os_Close_calls f w err w' :
  os.Close f w = (Done err, w') ->
  w' = w \/ exists fd, f = Some fd /\ calls w' = CloseCall fd err :: calls w.
Proof.
  unfold os.Close. destruct f as [fd|]; [|intros [= <- <-]; by left].
  destruct (files w !! fd) as [st|]; [|intros [= <- <-]; by left].
  destruct (closed st); intros [= <- <-]; [by left|right; eauto].
Qed.

Lemma os_Close_nextFile f w err w' :
  os.Close f w = (Done err, w') -> nextFile w' = nextFile w.
Proof.
  unfold os.Close. destruct f as [fd|]; [|by intros [= <- <-]].
  destruct (files w !! fd) as [st|]; [|by intros [= <- <-]].
  destruct (closed st); by intros [= <- <-].
Qed.

End Calls.

Section Rolling.

Import files.

Lemma rollingToNextFile_failure now drf w name random' e :
  NextName (nameGenerator drf) (directory drf) now (random w) = (name, random') ->
  createFails (kernel w) (length (calls w)) name = Some e ->
  rollingToNextFile now drf w
  = (Done drf,
     afterCall (CreateCall name (inr e)) (files w) (nextFile w)
       (set_random random' w)).
Proof.
  intros Hname Hfail. unfold rollingToNextFile, callNextName, CreateFileOf.
  io_unfold. rewrite Hname. simpl. by rewrite Hfail.
Qed.

Lemma rollingToNextFile_success now drf w name random' :
  NextName (nameGenerator drf) (directory drf) now (random w) = (name, random') ->
  createFails (kernel w) (length (calls w)) name = None ->
  exists cerr w',
    os.Close (file drf) (created name random' w) = (Done cerr, w')
    /\ rollingToNextFile now drf w
       = (Done (set_file_lastTime drf (Some (nextFile w)) now), w').
Proof.
  intros Hname Hok.
  destruct (os_Close_returns (file drf) (created name random' w))
    as (cerr & w' & Hclose).
  exists cerr, w'. split; [done|].
  unfold rollingToNextFile, callNextName, CreateFileOf.
  io_unfold. rewrite Hname. simpl. rewrite Hok.
  fold (created name random' w). by rewrite Hclose.
Qed.

Lemma qualifies_test drf now :
  isNil (file drf) || (time.Sub now (lastTime drf) >=? duration drf) = true
  <-> qualifies drf now.
Proof.
  unfold qualifies. rewrite orb_true_iff, Z.geb_le.
  destruct (file drf); simpl; split; intros [H|H]; auto; discriminate.
Qed.

Lemma ensureFileIsCorrect_keeps drf w :
  ~ qualifies drf (clock w) -> ensureFileIsCorrect drf w = (Done drf, w).
Proof.
  intros H. unfold ensureFileIsCorrect, time_io.Now. io_unfold.
  destruct (isNil _ || _) eqn:E; [|done].
  apply qualifies_test in E. contradiction.
Qed.

Lemma ensureFileIsCorrect_rolls drf w :
  qualifies drf (clock w) ->
  ensureFileIsCorrect drf w = rollingToNextFile (clock w) drf w.
Proof.
  intros H. unfold ensureFileIsCorrect, time_io.Now. io_unfold.
  apply qualifies_test in H. by rewrite H.
Qed.

Lemma qualifies_set_mu drf m now :
  qualifies (set_mu drf m) now <-> qualifies drf now.
Proof. reflexivity. Qed.

Lemma rollingToNextFile_set_mu now drf m w drf1 w1 :
  rollingToNextFile now drf w = (Done drf1, w1) ->
  rollingToNextFile now (set_mu drf m) w = (Done (set_mu drf1 m), w1).
Proof.
  unfold rollingToNextFile, callNextName, CreateFileOf. io_unfold. simpl.
  destruct (NextName _ _ _ _) as [name random']. simpl.
  destruct (createFails _ _ _) as [e|]; simpl; [by intros [= <- <-]|].
  destruct (os.Close _ _) as [[cerr| |] w']; [|done..].
  by intros [= <- <-].
Qed.

Lemma rollingToNextFile_mu now drf w drf1 w1 :
  rollingToNextFile now drf w = (Done drf1, w1) -> mu drf1 = mu drf.
Proof.
  unfold rollingToNextFile, callNextName, CreateFileOf. io_unfold.
  destruct (NextName _ _ _ _) as [name random']. simpl.
  destruct (createFails _ _ _) as [e|]; simpl; [by intros [= <- <-]|].
  destruct (os.Close _ _) as [[cerr| |] w']; [|done..].
  by intros [= <- <-].
Qed.

Lemma ensureFileIsCorrect_set_mu drf m w drf1 w1 :
  ensureFileIsCorrect drf w = (Done drf1, w1) ->
  ensureFileIsCorrect (set_mu drf m) w = (Done (set_mu drf1 m), w1).
Proof.
  unfold ensureFileIsCorrect, time_io.Now. io_unfold. simpl.
  destruct (isNil _ || _).
  - apply rollingToNextFile_set_mu.
  - by intros [= <- <-].
Qed.

Lemma ensureFileIsCorrect_mu drf w drf1 w1 :
  ensureFileIsCorrect drf w = (Done drf1, w1) -> mu drf1 = mu drf.
Proof.
  unfold ensureFileIsCorrect, time_io.Now. io_unfold.
  destruct (isNil _ || _).
  - apply rollingToNextFile_mu.
  - by intros [= <- <-].
Qed.

Lemma ensureFileIsCorrect_returns drf w :
  exists drf1 w1, ensureFileIsCorrect drf w = (Done drf1, w1).
Proof.
  destruct (decide (isNil (file drf)
                    || (time.Sub (clock w) (lastTime drf) >=? duration drf) = true))
    as [H|H].
  - apply qualifies_test in H. rewrite (ensureFileIsCorrect_rolls _ _ H).
    destruct (NextName (nameGenerator drf) (directory drf) (clock w) (random w))
      as [name random'] eqn:Hname.
    destruct (createFails (kernel w) (length (calls w)) name) as [e|] eqn:Hc.
    + rewrite (rollingToNextFile_failure _ _ _ _ _ _ Hname Hc). eauto.
    + destruct (rollingToNextFile_success _ _ _ _ _ Hname Hc)
        as (cerr & w' & _ & ->). eauto.
  - rewrite ensureFileIsCorrect_keeps; [eauto|].
    by rewrite <- qualifies_test.
Qed.

(** [Write] on a free mutex: the rotation check, then the write on the
    active file, whose result is returned. *)
Lemma Write_steps p drf w drf1 w1 r w2 :
  sync.locked (mu drf) = false ->
  ensureFileIsCorrect drf w = (Done drf1, w1) ->
  os.Write (file drf1) p w1 = (Done r, w2) ->
  Write p drf w = (Done (r, drf1), w2).
Proof.
  intros Hfree Hensure Hwrite.
  pose proof (ensureFileIsCorrect_mu _ _ _ _ Hensure) as Hmu.
  unfold Write, sync.Lock, sync.Unlock. io_unfold. rewrite Hfree.
  rewrite (ensureFileIsCorrect_set_mu _ {| sync.locked := true |} _ _ _ Hensure).
  simpl. rewrite Hwrite. simpl.
  rewrite set_mu_set_mu, set_mu_unlocked; [done|]. by rewrite Hmu.
Qed.

Lemma Write_returns p drf w :
  sync.locked (mu drf) = false ->
  exists r drf1 w1 w2,
    ensureFileIsCorrect drf w = (Done drf1, w1)
    /\ os.Write (file drf1) p w1 = (Done r, w2)
    /\ Write p drf w = (Done (r, drf1), w2).
Proof.
  intros Hfree.
  destruct (ensureFileIsCorrect_returns drf w) as (drf1 & w1 & H1).
  destruct (os_Write_returns (file drf1) p w1) as (r & w2 & H2).
  exists r, drf1, w1, w2. eauto using Write_steps.
Qed.

End Rolling.

Section Frames.

(** What a write leaves alone. *)
Lemma os_Write_frame f b w r w' :
  os.Write f b w = (Done r, w') ->
  kernel w' = kernel w /\ nextFile w' = nextFile w /\ random w' = random w
  /\ (forall fd, f <> Some fd -> files w' !! fd = files w !! fd)
  /\ (forall fd st, files w !! fd = Some st ->
        exists st', files w' !! fd = Some st'
                    /\ closed st' = closed st /\ fileName st' = fileName st).
Proof.
  unfold os.Write.
  destruct f as [fd|]; [|intros [= <- <-]; repeat split; eauto].
  destruct (files w !! fd) as [st|] eqn:Hfd;
    [|intros [= <- <-]; repeat split; eauto].
  destruct (closed st) eqn:Hcl; [intros [= <- <-]; repeat split; eauto|].
  assert (forall n err w'',
    w'' = afterCall (WriteCall fd b n err)
            (<[fd := {| fileName := fileName st; closed := false;
                        written := written st ++ take n b |}]> (files w))
            (nextFile w) w ->
    kernel w'' = kernel w /\ nextFile w'' = nextFile w /\ random w'' = random w
    /\ (forall fd', Some fd <> Some fd' -> files w'' !! fd' = files w !! fd')
    /\ (forall fd' st0, files w !! fd' = Some st0 ->
          exists st', files w'' !! fd' = Some st'
                      /\ closed st' = closed st0 /\ fileName st' = fileName st0))
    as Hgen.
  { intros n err w'' ->. repeat split; simpl.
    - intros fd' Hne. rewrite lookup_insert_ne; [done|congruence].
    - intros fd' st0 Hst0. destruct (decide (fd = fd')) as [<-|Hne].
      + rewrite lookup_insert_eq. eexists; split; [done|].
        simpl. rewrite Hfd in Hst0. injection Hst0 as <-. by rewrite Hcl.
      + rewrite lookup_insert_ne; eauto. }
  destruct (writeFails _ _ _) as [[k e]|]; intros [= <- <-]; by eapply Hgen.
Qed.

(** What a close leaves alone, and what it does to the file. *)
Lemma os_Close_frame f w err w' :
  os.Close f w = (Done err, w') ->
  kernel w' = kernel w /\ nextFile w' = nextFile w /\ random w' = random w
  /\ (forall fd, f <> Some fd -> files w' !! fd = files w !! fd)
  /\ (forall fd st, f = Some fd -> files w !! fd = Some st ->
        exists st', files w' !! fd = Some st' /\ closed st' = true
                    /\ fileName st' = fileName st /\ written st' = written st).
Proof.
  unfold os.Close.
  destruct f as [fd|]; [|intros [= <- <-]; repeat split; eauto; done].
  destruct (files w !! fd) as [st|] eqn:Hfd.
  - destruct (closed st) eqn:Hcl; intros [= <- <-]; repeat split; simpl; eauto.
    + intros fd' st0 [= <-] Hst0. rewrite Hfd in Hst0. injection Hst0 as <-.
      eauto.
    + intros fd' Hne. rewrite lookup_insert_ne; [done|congruence].
    + intros fd' st0 [= <-] Hst0. rewrite Hfd in Hst0. injection Hst0 as <-.
      rewrite lookup_insert_eq. eauto.
  - intros [= <- <-]; repeat split; eauto. intros fd' st0 [= <-] Hst0.
    rewrite Hfd in Hst0. discriminate.
Qed.

(** A write on an open file reaches the operating system, and reports
    what the operating system did. *)
Lemma os_Write_open fd st b w :
  files w !! fd = Some st -> closed st = false ->
  exists n err w',
    os.Write (Some fd) b w = (Done (Z.of_nat n, err), w')
    /\ calls w' = WriteCall fd b n err :: calls w
    /\ (n, err) = match writeFails (kernel w) (length (calls w)) b with
                  | None => (length b, None)
                  | Some (k, e) => (Nat.min k (length b), Some e)
                  end.
Proof.
  intros Hfd Hcl. unfold os.Write. rewrite Hfd, Hcl.
  destruct (writeFails _ _ _) as [[k e]|]; eexists _, _, _; eauto.
Qed.

(** The calls a write adds: at most one, and never a creation. *)
Lemma os_Write_newCalls f b w r w' :
  os.Write f b w = (Done r, w') ->
  exists l, calls w' = l ++ calls w
            /\ creations l = 0%nat
            /\ (length (writesOf l) <= 1)%nat.
Proof.
  intros H. destruct (os_Write_calls _ _ _ _ _ H)
    as [->|(fd & n & err & _ & _ & Hc)].
  - exists []. simpl. auto.
  - exists [WriteCall fd b n err]. simpl. auto.
Qed.

(** The calls a close adds: neither a creation nor a write. *)
Lemma os_Close_newCalls f w err w' :
  os.Close f w = (Done err, w') ->
  exists l, calls w' = l ++ calls w
            /\ creations l = 0%nat /\ writesOf l = [].
Proof.
  intros H. destruct (os_Close_calls _ _ _ _ H) as [->|(fd & _ & Hc)].
  - exists []. simpl. auto.
  - exists [CloseCall fd err]. simpl. auto.
Qed.

End Frames.

Section WriteCases.

Import files.

(** A write that does not qualify goes straight to the file held. *)
Lemma Write_keeps p drf w r w' :
  sync.locked (mu drf) = false ->
  ~ qualifies drf (clock w) ->
  os.Write (file drf) p w = (Done r, w') ->
  Write p drf w = (Done (r, drf), w').
Proof.
  intros Hfree Hq Hw. eapply Write_steps; eauto.
  by apply ensureFileIsCorrect_keeps.
Qed.

(** A write that qualifies while the next file cannot be created. *)
Lemma Write_rolls_failure p drf w name random' e r w' :
  sync.locked (mu drf) = false ->
  qualifies drf (clock w) ->
  NextName (nameGenerator drf) (directory drf) (clock w) (random w)
  = (name, random') ->
  createFails (kernel w) (length (calls w)) name = Some e ->
  os.Write (file drf) p
    (afterCall (CreateCall name (inr e)) (files w) (nextFile w)
       (set_random random' w)) = (Done r, w') ->
  Write p drf w = (Done (r, drf), w').
Proof.
  intros Hfree Hq Hname Hfail Hw. eapply Write_steps; eauto.
  rewrite ensureFileIsCorrect_rolls by done.
  by apply rollingToNextFile_failure.
Qed.

(** A write that qualifies and gets its next file. *)
Lemma Write_rolls_success p drf w name random' cerr wc r w' :
  sync.locked (mu drf) = false ->
  qualifies drf (clock w) ->
  NextName (nameGenerator drf) (directory drf) (clock w) (random w)
  = (name, random') ->
  createFails (kernel w) (length (calls w)) name = None ->
  os.Close (file drf) (created name random' w) = (Done cerr, wc) ->
  os.Write (Some (nextFile w)) p wc = (Done r, w') ->
  Write p drf w
  = (Done (r, set_file_lastTime drf (Some (nextFile w)) (clock w)), w').
Proof.
  intros Hfree Hq Hname Hok Hclose Hw. eapply Write_steps; eauto.
  rewrite ensureFileIsCorrect_rolls by done.
  destruct (rollingToNextFile_success (clock w) drf w name random' Hname Hok)
    as (cerr' & wc' & Hclose' & ->).
  rewrite Hclose in Hclose'. by injection Hclose' as <- <-.
Qed.

(** The calls of a rotation: one creation, and no write. *)
Lemma rollingToNextFile_newCalls now drf w drf1 w1 :
  rollingToNextFile now drf w = (Done drf1, w1) ->
  exists l, calls w1 = l ++ calls w
            /\ creations l = 1%nat /\ writesOf l = [].
Proof.
  intros H.
  destruct (NextName (nameGenerator drf) (directory drf) now (random w))
    as [name random'] eqn:Hname.
  destruct (createFails (kernel w) (length (calls w)) name) as [e|] eqn:Hc.
  - rewrite (rollingToNextFile_failure _ _ _ _ _ _ Hname Hc) in H.
    injection H as <- <-. by exists [CreateCall name (inr e)].
  - destruct (rollingToNextFile_success now drf w name random' Hname Hc)
      as (cerr & wc & Hclose & Hroll).
    rewrite Hroll in H. injection H as <- <-.
    destruct (os_Close_newCalls _ _ _ _ Hclose) as (l & Hl & Hcr & Hwr).
    exists (l ++ [CreateCall name (inl (nextFile w))]).
    rewrite Hl, <- app_assoc. split; [done|].
    by rewrite creations_app, writesOf_app, Hcr, Hwr.
Qed.

(** A rotation always asks the operating system for the next file. *)
Lemma rollingToNextFile_creates now drf w drf1 w1 :
  rollingToNextFile now drf w = (Done drf1, w1) ->
  rotationInvoked w w1 = true.
Proof.
  intros H.
  destruct (rollingToNextFile_newCalls _ _ _ _ _ H) as (l & Hl & Hcr & _).
  unfold rotationInvoked. rewrite (newCalls_app _ _ _ Hl).
  apply existsb_creations. lia.
Qed.

(** The calls of the rotation check: one creation when the write
    qualifies and none otherwise, and no write. *)
Lemma ensureFileIsCorrect_newCalls drf w drf1 w1 :
  ensureFileIsCorrect drf w = (Done drf1, w1) ->
  exists l, calls w1 = l ++ calls w
            /\ (qualifies drf (clock w) -> creations l = 1%nat)
            /\ (~ qualifies drf (clock w) -> creations l = 0%nat)
            /\ writesOf l = [].
Proof.
  intros H. destruct (decide (isNil (file drf)
      || (time.Sub (clock w) (lastTime drf) >=? duration drf) = true)) as [Hq|Hq];
    rewrite qualifies_test in Hq.
  - rewrite ensureFileIsCorrect_rolls in H by done.
    destruct (rollingToNextFile_newCalls _ _ _ _ _ H) as (l & Hl & Hcr & Hwr).
    exists l. by split_and!.
  - rewrite ensureFileIsCorrect_keeps in H by done. injection H as <- <-.
    exists []. by split_and!.
Qed.

(** The calls of a whole [Write]. *)
Lemma Write_newCalls p drf w r drf' w' :
  sync.locked (mu drf) = false ->
  Write p drf w = (Done (r, drf'), w') ->
  exists l, calls w' = l ++ calls w
            /\ (qualifies drf (clock w) -> creations l = 1%nat)
            /\ (~ qualifies drf (clock w) -> creations l = 0%nat)
            /\ (length (writesOf l) <= 1)%nat.
Proof.
  intros Hfree H.
  destruct (Write_returns p drf w Hfree) as (r0 & drf1 & w1 & w2 & He & Hw & HW).
  rewrite HW in H. injection H as <- <- <-.
  destruct (ensureFileIsCorrect_newCalls _ _ _ _ He)
    as (le & Hle & Hyes & Hno & Hwr).
  destruct (os_Write_newCalls _ _ _ _ _ Hw) as (lw & Hlw & Hcw & Hww).
  exists (lw ++ le). rewrite Hlw, Hle, app_assoc. split; [done|].
  rewrite creations_app, writesOf_app, length_app, Hcw, Hwr. simpl.
  split_and!; [done..|lia].
Qed.

End WriteCases.

Section TwoWrites.

Import files.

(** A write that rolls, when the file held was made before: the bytes
    go to the new file, which is open, and the file held before is
    closed. *)
Lemma Write_rolls_to_new p drf w name random' :
  sync.locked (mu drf) = false ->
  qualifies drf (clock w) ->
  NextName (nameGenerator drf) (directory drf) (clock w) (random w)
  = (name, random') ->
  createFails (kernel w) (length (calls w)) name = None ->
  (forall f, file drf = Some f -> f <> nextFile w) ->
  exists r w',
    Write p drf w
    = (Done (r, set_file_lastTime drf (Some (nextFile w)) (clock w)), w')
    /\ lastWrite w' = Some (nextFile w, p)
    /\ nextFile w' = S (nextFile w)
    /\ kernel w' = kernel w
    /\ (exists st, files w' !! nextFile w = Some st
                   /\ closed st = false /\ fileName st = name)
    /\ (forall f st, file drf = Some f -> files w !! f = Some st ->
          exists st', files w' !! f = Some st' /\ closed st' = true).
Proof.
  intros Hfree Hq Hname Hok Hold.
  destruct (os_Close_returns (file drf) (created name random' w))
    as (cerr & wc & Hclose).
  destruct (os_Close_frame _ _ _ _ Hclose) as (Hk & Hn & _ & Hother & Hclosed).
  assert (files wc !! nextFile w
          = Some {| fileName := name; closed := false; written := [] |}) as Hnew.
  { rewrite Hother; [apply lookup_insert_eq|].
    intros Hf. by apply (Hold _ Hf). }
  destruct (os_Write_open _ _ p _ Hnew eq_refl) as (n & err & w' & Hw & Hcalls & _).
  destruct (os_Write_frame _ _ _ _ _ Hw) as (Hk' & Hn' & _ & Hother' & Hkeep').
  exists (Z.of_nat n, err), w'. split; [by eapply Write_rolls_success|].
  split; [unfold lastWrite; by rewrite Hcalls|].
  split; [by rewrite Hn', Hn|].
  split; [by rewrite Hk', Hk|].
  split.
  - destruct (Hkeep' _ _ Hnew) as (st' & Hst' & Hc & Hf). eauto.
  - intros f st Hf Hst.
    destruct (Hclosed f st Hf) as (st1 & Hst1 & Hc1 & _).
    { unfold created. simpl. rewrite lookup_insert_ne; [done|].
      intros Heq. by apply (Hold _ Hf). }
    destruct (Hkeep' _ _ Hst1) as (st2 & Hst2 & Hc2 & _).
    exists st2. split; [done|congruence].
Qed.

(** A write that does not qualify, on an open file: the bytes go to the
    file held. *)
Lemma Write_keeps_open p drf w f st :
  sync.locked (mu drf) = false ->
  ~ qualifies drf (clock w) ->
  file drf = Some f -> files w !! f = Some st -> closed st = false ->
  exists r w',
    Write p drf w = (Done (r, drf), w') /\ lastWrite w' = Some (f, p).
Proof.
  intros Hfree Hq Hf Hst Hcl.
  destruct (os_Write_open _ _ p _ Hst Hcl) as (n & err & w' & Hw & Hcalls & _).
  exists (Z.of_nat n, err), w'. split.
  - apply Write_keeps; [done..|]. by rewrite Hf.
  - unfold lastWrite. by rewrite Hcalls.
Qed.

Lemma NewDurationRollingFile_accepts directory dur w :
  minDuration <= dur ->
  NewDurationRollingFile directory dur w
  = (Done {| file := None; directory := directory; lastTime := time.zero;
             duration := dur; nameGenerator := DefaultNameGenerator;
             mu := {| sync.locked := false |} |}, w).
Proof.
  intros H. unfold NewDurationRollingFile.
  destruct (dur <? minDuration) eqn:E; [lia|done].
Qed.

Lemma NewDurationRollingFile_refuses directory dur w :
  dur < minDuration ->
  NewDurationRollingFile directory dur w
  = (Panic (errorString
              (String.append "Duration is smaller than "
                 (String.append minDuration_String
                    (String (ascii_of_nat 10) EmptyString)))), w).
Proof.
  intros H. unfold NewDurationRollingFile.
  destruct (dur <? minDuration) eqn:E; [done|lia].
Qed.

Lemma Sub_Add t d :
  time.Sub (time.Add t d) t
  = if d <? time.minDuration then time.minDuration
    else if time.maxDuration <? d then time.maxDuration else d.
Proof.
  unfold time.Sub, time.Add. simpl.
  by replace (time.instant t + d - time.instant t) with d by lia.
Qed.

(** Two writes in a row on a new rolling file, the second one [d] after
    the first one, when files can be created. *)
Lemma two_writes directory dur d p1 p2 w0 :
  neverFailsCreate (kernel w0) ->
  minDuration <= dur <= time.maxDuration ->
  exists drf0 r1 drf1 w1 r2 drf2 w2,
    NewDurationRollingFile directory dur w0 = (Done drf0, w0)
    /\ Write p1 drf0 w0 = (Done (r1, drf1), w1)
    /\ Write p2 drf1 (atTime (time.Add (clock w0) d) w1) = (Done (r2, drf2), w2)
    /\ lastWrite w1 = Some (nextFile w0, p1)
    /\ lastWrite w2
       = Some (if dur <=? d then S (nextFile w0) else nextFile w0, p2).
Proof.
  intros Hcreate [Hmin Hmax].
  eexists. rewrite (NewDurationRollingFile_accepts directory dur w0 Hmin).
  set (drf0 := {| file := None |}).
  destruct (NextName (nameGenerator drf0) (directory) (clock w0) (random w0))
    as [name random'] eqn:Hname.
  destruct (Write_rolls_to_new p1 drf0 w0 name random')
    as (r1 & w1 & HW1 & Hlast1 & Hnext1 & Hk1 & (st1 & Hst1 & Hcl1 & _) & _);
    [done|by left|done|apply Hcreate|done|].
  set (drf1 := set_file_lastTime drf0 (Some (nextFile w0)) (clock w0)) in *.
  set (w1' := atTime (time.Add (clock w0) d) w1).
  assert (qualifies drf1 (clock w1') <-> dur <= d) as Hq.
  { unfold qualifies. simpl. rewrite Sub_Add.
    unfold minDuration, time.minDuration, time.maxDuration, time.Second,
      time.Millisecond, time.Microsecond, time.Nanosecond in *.
    split.
    - intros [|H]; [done|].
      destruct (d <? _) eqn:E1; [lia|]. destruct (_ <? d) eqn:E2; lia.
    - intros H. right.
      destruct (d <? _) eqn:E1; [lia|]. destruct (_ <? d) eqn:E2; lia. }
  destruct (dur <=? d) eqn:E.
  - apply Z.leb_le in E.
    destruct (NextName (nameGenerator drf1) (directory) (clock w1') (random w1'))
      as [name2 random2] eqn:Hname2.
    destruct (Write_rolls_to_new p2 drf1 w1' name2 random2)
      as (r2 & w2 & HW2 & Hlast2 & _);
      [done|by apply Hq|done|simpl; rewrite Hk1; apply Hcreate| |].
    { simpl. intros f [= <-]. rewrite Hnext1. lia. }
    exists r1, drf1, w1, r2,
      (set_file_lastTime drf1 (Some (nextFile w1')) (clock w1')), w2.
    repeat split; try done.
    simpl in Hlast2. by rewrite Hnext1 in Hlast2.
  - apply Z.leb_gt in E.
    destruct (Write_keeps_open p2 drf1 w1' (nextFile w0) st1)
      as (r2 & w2 & HW2 & Hlast2); [done|rewrite Hq; lia|done..|].
    exists r1, drf1, w1, r2, drf1, w2. by repeat split.
Qed.

End TwoWrites.

(** ** The rotation trigger *)

(** Every [Write] on a free mutex returns, and has invoked the rotation
    exactly when it qualified. *)
Lemma Write_rotates_iff (p : list byte) (drf : files.DurationRollingFile)
    (w : World) :
  sync.locked (files.mu drf) = false ->
  exists r drf' w',
    files.Write p drf w = (Done (r, drf'), w')
    /\ (rotationInvoked w w' = true <-> qualifies drf (clock w)).
Proof.
  intros Hfree.
  destruct (Write_returns p drf w Hfree) as (r & drf' & w1 & w' & _ & _ & HW).
  exists r, drf', w'. split; [done|].
  destruct (Write_newCalls _ _ _ _ _ _ Hfree HW) as (l & Hl & Hyes & Hno & _).
  unfold rotationInvoked. rewrite (newCalls_app _ _ _ Hl), existsb_creations.
  split.
  - intros Hpos. destruct (decide (qualifies drf (clock w))) as [|Hn]; [done|].
    rewrite (Hno Hn) in Hpos. lia.
  - intros Hq. rewrite (Hyes Hq). lia.
Qed.

(** C1. A call of [Write] invokes the rotation if and only if, at the time
    read under the lock, no file is held or the time since the last
    rotation has reached the duration. In particular, on a rolling file
    made with a duration of one second, where files can be created: two
    writes 1.5 seconds apart go to two distinct files, and two writes
    0.5 seconds apart go to the same file. *)
Theorem Write_rotation_trigger :
  (forall (p : list byte) (drf : files.DurationRollingFile) (w : World),
      sync.locked (files.mu drf) = false ->
      exists r drf' w',
        files.Write p drf w = (Done (r, drf'), w')
        /\ (rotationInvoked w w' = true <-> qualifies drf (clock w)))
  /\ (forall (directory : string) (p1 p2 : list byte) (w0 : World),
        neverFailsCreate (kernel w0) ->
        exists drf0 r1 drf1 w1 r2 drf2 w2 f1 f2,
          files.NewDurationRollingFile directory (1 * time.Second) w0
          = (Done drf0, w0)
          /\ files.Write p1 drf0 w0 = (Done (r1, drf1), w1)
          /\ files.Write p2 drf1
               (atTime (time.Add (clock w0) (1500 * time.Millisecond)) w1)
             = (Done (r2, drf2), w2)
          /\ lastWrite w1 = Some (f1, p1)
          /\ lastWrite w2 = Some (f2, p2)
          /\ f1 <> f2)
  /\ (forall (directory : string) (p1 p2 : list byte) (w0 : World),
        neverFailsCreate (kernel w0) ->
        exists drf0 r1 drf1 w1 r2 drf2 w2 f,
          files.NewDurationRollingFile directory (1 * time.Second) w0
          = (Done drf0, w0)
          /\ files.Write p1 drf0 w0 = (Done (r1, drf1), w1)
          /\ files.Write p2 drf1
               (atTime (time.Add (clock w0) (500 * time.Millisecond)) w1)
             = (Done (r2, drf2), w2)
          /\ lastWrite w1 = Some (f, p1)
          /\ lastWrite w2 = Some (f, p2)).
Proof.
  split; [|split].
  - apply Write_rotates_iff.
  - intros directory p1 p2 w0 Hcreate.
    destruct (two_writes directory (1 * time.Second) (1500 * time.Millisecond)
                p1 p2 w0 Hcreate)
      as (drf0 & r1 & drf1 & w1 & r2 & drf2 & w2 & H0 & H1 & H2 & L1 & L2);
      [by vm_compute|].
    exists drf0, r1, drf1, w1, r2, drf2, w2, (nextFile w0), (S (nextFile w0)).
    repeat split; try done.
  - intros directory p1 p2 w0 Hcreate.
    destruct (two_writes directory (1 * time.Second) (500 * time.Millisecond)
                p1 p2 w0 Hcreate)
      as (drf0 & r1 & drf1 & w1 & r2 & drf2 & w2 & H0 & H1 & H2 & L1 & L2);
      [by vm_compute|].
    exists drf0, r1, drf1, w1, r2, drf2, w2, (nextFile w0). by repeat split.
Qed.

Lemma Write_rotation_trigger_witness :
  (sync.locked (files.mu Sample.fresh) = false
   /\ exists r drf' w',
        files.Write Sample.hello Sample.fresh (Sample.start Sample.denying)
        = (Done (r, drf'), w')
        /\ (rotationInvoked (Sample.start Sample.denying) w' = true
            <-> qualifies Sample.fresh (clock (Sample.start Sample.denying))))
  /\ (neverFailsCreate (kernel (Sample.start Sample.calm))
      /\ exists drf0 r1 drf1 w1 r2 drf2 w2 f1 f2,
          files.NewDurationRollingFile "logs" (1 * time.Second)
            (Sample.start Sample.calm)
          = (Done drf0, Sample.start Sample.calm)
          /\ files.Write Sample.hello drf0 (Sample.start Sample.calm)
             = (Done (r1, drf1), w1)
          /\ files.Write Sample.hello drf1
               (atTime (time.Add (clock (Sample.start Sample.calm))
                          (1500 * time.Millisecond)) w1)
             = (Done (r2, drf2), w2)
          /\ lastWrite w1 = Some (f1, Sample.hello)
          /\ lastWrite w2 = Some (f2, Sample.hello)
          /\ f1 <> f2)
  /\ (neverFailsCreate (kernel (Sample.start Sample.faulty))
      /\ exists drf0 r1 drf1 w1 r2 drf2 w2 f,
          files.NewDurationRollingFile "logs" (1 * time.Second)
            (Sample.start Sample.faulty)
          = (Done drf0, Sample.start Sample.faulty)
          /\ files.Write Sample.hello drf0 (Sample.start Sample.faulty)
             = (Done (r1, drf1), w1)
          /\ files.Write Sample.hello drf1
               (atTime (time.Add (clock (Sample.start Sample.faulty))
                          (500 * time.Millisecond)) w1)
             = (Done (r2, drf2), w2)
          /\ lastWrite w1 = Some (f, Sample.hello)
          /\ lastWrite w2 = Some (f, Sample.hello)).
Proof.
  split; [|split].
  - split; [reflexivity|].
    apply (proj1 Write_rotation_trigger). reflexivity.
  - split; [intros t name; reflexivity|].
    apply (proj1 (proj2 Write_rotation_trigger)). intros t name; reflexivity.
  - split; [intros t name; reflexivity|].
    apply (proj2 (proj2 Write_rotation_trigger)). intros t name; reflexivity.
Defined.

(** ** Rotation when the next file cannot be created *)

Section RotationFailure.

Import files.

Lemma Sub_mono (t t' u : time.Time) :
  time.instant t <= time.instant t' -> time.Sub t u <= time.Sub t' u.
Proof.
  intros H. unfold time.Sub, time.minDuration, time.maxDuration.
  repeat match goal with
         | |- context [?a <? ?b] => destruct (Z.ltb_spec a b)
         end; lia.
Qed.

Lemma qualifies_later drf (t t' : time.Time) :
  qualifies drf t -> time.instant t <= time.instant t' -> qualifies drf t'.
Proof.
  intros [H|H] Hle; [by left|right].
  pose proof (Sub_mono t t' (lastTime drf) Hle). lia.
Qed.

(** The result of a write does not depend on the error that an earlier
    creation failed with. *)
Lemma os_Write_refused f p name random' e e' w r w' :
  os.Write f p (refused name random' e w) = (Done r, w') ->
  exists w'', os.Write f p (refused name random' e' w) = (Done r, w'').
Proof.
  unfold os.Write, refused. simpl.
  destruct f as [fd|]; [|intros [= <- <-]; eauto].
  destruct (files w !! fd) as [st|]; [|intros [= <- <-]; eauto].
  destruct (closed st); [intros [= <- <-]; eauto|].
  destruct (writeFails _ _ _) as [[k e0]|]; intros [= <- <-]; eauto.
Qed.

End RotationFailure.

(** C2. When a write attempts the rotation and the next file cannot be
    created, the rotation leaves the rolling file as it was (the file held
    and the time of the last rotation keep their values, or the file stays
    unset) and creates and closes no file; the write is then made on the
    file held before and its result is returned, whatever the error of the
    creation was; and the rotation is attempted again by the next write
    that qualifies, which every later write does. *)
Theorem rotation_failure_is_silent
    (p : list byte) (drf : files.DurationRollingFile) (w : World) (e : error) :
  sync.locked (files.mu drf) = false ->
  qualifies drf (clock w) ->
  creationError drf (clock w) w = Some e ->
  exists r w',
    files.rollingToNextFile (clock w) drf w
    = (Done drf,
       refused (nextName drf (clock w) w).1 (nextName drf (clock w) w).2 e w)
    /\ os.Write (files.file drf) p
         (refused (nextName drf (clock w) w).1 (nextName drf (clock w) w).2 e w)
       = (Done r, w')
    /\ (forall e', exists w'',
          os.Write (files.file drf) p
            (refused (nextName drf (clock w) w).1 (nextName drf (clock w) w).2 e' w)
          = (Done r, w''))
    /\ files.Write p drf w = (Done (r, drf), w')
    /\ (forall w2, time.instant (clock w) <= time.instant (clock w2) ->
          qualifies drf (clock w2))
    /\ (forall p2 w2, qualifies drf (clock w2) ->
          exists r2 drf2 w2',
            files.Write p2 drf w2 = (Done (r2, drf2), w2')
            /\ rotationInvoked w2 w2' = true).
Proof.
  intros Hfree Hq Hfail. unfold creationError in Hfail.
  destruct (nextName drf (clock w) w) as [name random'] eqn:Hname.
  unfold nextName in Hname. simpl in *.
  destruct (os_Write_returns (files.file drf) p (refused name random' e w))
    as (r & w' & Hw).
  exists r, w'. split; [by apply rollingToNextFile_failure|].
  split; [done|].
  split; [intros e'; by eapply os_Write_refused|].
  split; [by eapply Write_rolls_failure|].
  split; [intros w2; by apply qualifies_later|].
  intros p2 w2 Hq2.
  destruct (Write_rotates_iff p2 drf w2 Hfree) as (r2 & drf2 & w2' & HW & Hiff).
  exists r2, drf2, w2'. split; [done|]. by apply Hiff.
Qed.

Lemma rotation_failure_is_silent_witness :
  let p := Sample.hello in
  let drf := Sample.fresh in
  let w := Sample.start Sample.denying in
  let e := Errno 13 in
  (sync.locked (files.mu drf) = false
   /\ qualifies drf (clock w)
   /\ creationError drf (clock w) w = Some e)
  /\ exists r w',
    files.rollingToNextFile (clock w) drf w
    = (Done drf,
       refused (nextName drf (clock w) w).1 (nextName drf (clock w) w).2 e w)
    /\ os.Write (files.file drf) p
         (refused (nextName drf (clock w) w).1 (nextName drf (clock w) w).2 e w)
       = (Done r, w')
    /\ (forall e', exists w'',
          os.Write (files.file drf) p
            (refused (nextName drf (clock w) w).1 (nextName drf (clock w) w).2 e' w)
          = (Done r, w''))
    /\ files.Write p drf w = (Done (r, drf), w')
    /\ (forall w2, time.instant (clock w) <= time.instant (clock w2) ->
          qualifies drf (clock w2))
    /\ (forall p2 w2, qualifies drf (clock w2) ->
          exists r2 drf2 w2',
            files.Write p2 drf w2 = (Done (r2, drf2), w2')
            /\ rotationInvoked w2 w2' = true).
Proof.
  intros p drf w e.
  assert (sync.locked (files.mu drf) = false) as H1 by reflexivity.
  assert (qualifies drf (clock w)) as H2 by (left; reflexivity).
  assert (creationError drf (clock w) w = Some e) as H3 by reflexivity.
  split; [auto|].
  exact (rotation_failure_is_silent p drf w e H1 H2 H3).
Defined.

(** ** Rotation when the next file is created *)

(** C3. When the next file is created, the rotation closes the file held
    before and goes on whatever that close reports, the new file becomes
    the file of the rolling file and is open, and the time of the last
    rotation becomes the time given to the rotation; in a [Write], that
    time is the one read at the start of the rotation check, and the bytes
    are written to the new file. *)
Theorem rotation_success_installs :
  (forall (now : time.Time) (drf : files.DurationRollingFile) (w : World),
      creationError drf now w = None ->
      (forall f, files.file drf = Some f -> (f < nextFile w)%nat) ->
      exists cerr w',
        os.Close (files.file drf)
          (created (nextName drf now w).1 (nextName drf now w).2 w)
        = (Done cerr, w')
        /\ files.rollingToNextFile now drf w
           = (Done (files.set_file_lastTime drf (Some (nextFile w)) now), w')
        /\ (forall f st, files.file drf = Some f -> files w !! f = Some st ->
              exists st', files w' !! f = Some st' /\ closed st' = true)
        /\ (exists st, files w' !! nextFile w = Some st /\ closed st = false
                       /\ fileName st = (nextName drf now w).1))
  /\ (forall (p : list byte) (drf : files.DurationRollingFile) (w : World),
        sync.locked (files.mu drf) = false ->
        qualifies drf (clock w) ->
        creationError drf (clock w) w = None ->
        (forall f, files.file drf = Some f -> (f < nextFile w)%nat) ->
        exists r drf' w',
          files.Write p drf w = (Done (r, drf'), w')
          /\ files.file drf' = Some (nextFile w)
          /\ files.lastTime drf' = clock w
          /\ lastWrite w' = Some (nextFile w, p)
          /\ (forall f st, files.file drf = Some f -> files w !! f = Some st ->
                exists st', files w' !! f = Some st' /\ closed st' = true)).
Proof.
  split.
  - intros now drf w Hok Hold. unfold creationError in Hok.
    destruct (nextName drf now w) as [name random'] eqn:Hname.
    unfold nextName in Hname. simpl in *.
    destruct (rollingToNextFile_success now drf w name random' Hname Hok)
      as (cerr & w' & Hclose & Hroll).
    exists cerr, w'. split; [done|]. split; [done|].
    destruct (os_Close_frame _ _ _ _ Hclose) as (_ & _ & _ & Hother & Hclosed).
    split.
    + intros f st Hf Hst.
      destruct (Hclosed f st Hf) as (st' & Hst' & Hcl & _); [|eauto].
      unfold created. simpl. rewrite lookup_insert_ne; [done|].
      specialize (Hold f Hf). lia.
    + eexists. rewrite Hother.
      * unfold created. simpl. rewrite lookup_insert_eq. eauto.
      * intros Hf. specialize (Hold _ Hf). lia.
  - intros p drf w Hfree Hq Hok Hold. unfold creationError in Hok.
    destruct (nextName drf (clock w) w) as [name random'] eqn:Hname.
    unfold nextName in Hname. simpl in *.
    destruct (Write_rolls_to_new p drf w name random' Hfree Hq Hname Hok)
      as (r & w' & HW & Hlast & _ & _ & _ & Hclosed).
    { intros f Hf. specialize (Hold f Hf). lia. }
    eexists r, _, w'. split; [exact HW|]. by repeat split.
Qed.

Lemma rotation_success_installs_witness :
  let p := Sample.hello in
  let drf := Sample.holding (2 * time.Second) in
  let w := Sample.running Sample.faulty in
  (sync.locked (files.mu drf) = false
   /\ qualifies drf (clock w)
   /\ creationError drf (clock w) w = None
   /\ (forall f, files.file drf = Some f -> (f < nextFile w)%nat))
  /\ (exists cerr w',
        os.Close (files.file drf)
          (created (nextName drf (clock w) w).1 (nextName drf (clock w) w).2 w)
        = (Done cerr, w')
        /\ files.rollingToNextFile (clock w) drf w
           = (Done (files.set_file_lastTime drf (Some (nextFile w)) (clock w)), w')
        /\ (forall f st, files.file drf = Some f -> files w !! f = Some st ->
              exists st', files w' !! f = Some st' /\ closed st' = true)
        /\ (exists st, files w' !! nextFile w = Some st /\ closed st = false
                       /\ fileName st = (nextName drf (clock w) w).1))
  /\ exists r drf' w',
       files.Write p drf w = (Done (r, drf'), w')
       /\ files.file drf' = Some (nextFile w)
       /\ files.lastTime drf' = clock w
       /\ lastWrite w' = Some (nextFile w, p)
       /\ (forall f st, files.file drf = Some f -> files w !! f = Some st ->
             exists st', files w' !! f = Some st' /\ closed st' = true).
Proof.
  intros p drf w.
  assert (sync.locked (files.mu drf) = false) as H1 by reflexivity.
  assert (qualifies drf (clock w)) as H2 by (right; vm_compute; discriminate).
  assert (creationError drf (clock w) w = None) as H3 by reflexivity.
  assert (forall f, files.file drf = Some f -> (f < nextFile w)%nat) as H4
    by (intros f [= <-]; simpl; lia).
  split; [auto|]. split.
  - exact (proj1 rotation_success_installs (clock w) drf w H3 H4).
  - exact (proj2 rotation_success_installs p drf w H1 H2 H3 H4).
Defined.

(** ** A write while no file could ever be created *)

(** C10. A [Write] made while no file is held and the creation of the
    file fails returns a count of 0 and a non-nil error, the invalid
    argument error of a nil [*os.File], without a panic; the rolling file
    is unchanged and no file has been made; and a later [Write], once the
    file is created and the operating system takes the bytes, succeeds
    with the full count on the new file. *)
Theorem Write_without_file
    (p : list byte) (drf : files.DurationRollingFile) (w : World) (e : error) :
  sync.locked (files.mu drf) = false ->
  files.file drf = None ->
  creationError drf (clock w) w = Some e ->
  exists w',
    files.Write p drf w = (Done ((0, Some ErrInvalid), drf), w')
    /\ files w' = files w
    /\ nextFile w' = nextFile w
    /\ (forall p2 w2,
          creationError drf (clock w2) w2 = None ->
          writeFails (kernel w2) (S (length (calls w2))) p2 = None ->
          exists drf2 w2',
            files.Write p2 drf w2
            = (Done ((Z.of_nat (length p2), None), drf2), w2')
            /\ files.file drf2 = Some (nextFile w2)
            /\ lastWrite w2' = Some (nextFile w2, p2)).
Proof.
  intros Hfree Hnil Hfail.
  assert (forall w0, qualifies drf (clock w0)) as Hq by (intros; by left).
  exists (refused (nextName drf (clock w) w).1 (nextName drf (clock w) w).2 e w).
  split; [|split; [done|split; [done|]]].
  - unfold creationError in Hfail.
    destruct (nextName drf (clock w) w) as [name random'] eqn:Hname.
    eapply Write_rolls_failure; eauto. by rewrite Hnil.
  - intros p2 w2 Hok Hwok. unfold creationError in Hok.
    destruct (nextName drf (clock w2) w2) as [name random'] eqn:Hname.
    unfold nextName in Hname. simpl in Hok.
    exists (files.set_file_lastTime drf (Some (nextFile w2)) (clock w2)).
    assert (os.Close (files.file drf) (created name random' w2)
            = (Done (Some ErrInvalid), created name random' w2)) as Hclose
      by (by rewrite Hnil).
    destruct (os_Write_open (nextFile w2)
                {| fileName := name; closed := false; written := [] |}
                p2 (created name random' w2))
      as (n & err & w2' & Hw & Hcalls & Hres);
      [apply lookup_insert_eq|done|].
    simpl in Hres. rewrite Hwok in Hres. injection Hres as -> ->.
    exists w2'. split; [|split; [done|]].
    + eapply Write_rolls_success; eauto.
    + unfold lastWrite. by rewrite Hcalls.
Qed.

Lemma Write_without_file_witness :
  let p := Sample.hello in
  let drf := Sample.fresh in
  let w := Sample.start Sample.denying in
  let e := Errno 13 in
  (sync.locked (files.mu drf) = false
   /\ files.file drf = None
   /\ creationError drf (clock w) w = Some e)
  /\ exists w',
    files.Write p drf w = (Done ((0, Some ErrInvalid), drf), w')
    /\ files w' = files w
    /\ nextFile w' = nextFile w
    /\ (forall p2 w2,
          creationError drf (clock w2) w2 = None ->
          writeFails (kernel w2) (S (length (calls w2))) p2 = None ->
          exists drf2 w2',
            files.Write p2 drf w2
            = (Done ((Z.of_nat (length p2), None), drf2), w2')
            /\ files.file drf2 = Some (nextFile w2)
            /\ lastWrite w2' = Some (nextFile w2, p2)).
Proof.
  intros p drf w e.
  assert (sync.locked (files.mu drf) = false) as H1 by reflexivity.
  assert (files.file drf = None) as H2 by reflexivity.
  assert (creationError drf (clock w) w = Some e) as H3 by reflexivity.
  split; [auto|].
  exact (Write_without_file p drf w e H1 H2 H3).
Defined.

(** ** The result of a write *)

(** C6. The count and the error that [Write] returns are those that the
    write on the active file (the file held after the rotation check)
    reports, unchanged: when that file is open, they are what the
    operating system answered, a full count, or a partial count with its
    error; and the bytes are handed to the operating system at most once. *)
Theorem Write_result_verbatim
    (p : list byte) (drf : files.DurationRollingFile) (w : World) :
  sync.locked (files.mu drf) = false ->
  exists r drf' w1 w',
    files.ensureFileIsCorrect drf w = (Done drf', w1)
    /\ os.Write (files.file drf') p w1 = (Done r, w')
    /\ files.Write p drf w = (Done (r, drf'), w')
    /\ (forall f st, files.file drf' = Some f -> files w1 !! f = Some st ->
          closed st = false -> r = kernelWrite p w1)
    /\ (length (writesOf (newCalls w w')) <= 1)%nat.
Proof.
  intros Hfree.
  destruct (Write_returns p drf w Hfree) as (r & drf' & w1 & w' & He & Hw & HW).
  exists r, drf', w1, w'. repeat split; try done.
  - intros f st Hf Hst Hcl. rewrite Hf in Hw.
    destruct (os_Write_open f st p w1 Hst Hcl) as (n & err & w'' & Hw' & _ & Hres).
    rewrite Hw in Hw'. injection Hw' as -> _. unfold kernelWrite.
    destruct (writeFails _ _ _) as [[k e]|]; by injection Hres as -> ->.
  - destruct (Write_newCalls _ _ _ _ _ _ Hfree HW) as (l & Hl & _ & _ & Hle).
    by rewrite (newCalls_app _ _ _ Hl).
Qed.

Lemma Write_result_verbatim_witness :
  let p := Sample.hello in
  let drf := Sample.holding (500 * time.Millisecond) in
  let w := Sample.running Sample.faulty in
  sync.locked (files.mu drf) = false
  /\ exists r drf' w1 w',
    files.ensureFileIsCorrect drf w = (Done drf', w1)
    /\ os.Write (files.file drf') p w1 = (Done r, w')
    /\ files.Write p drf w = (Done (r, drf'), w')
    /\ (forall f st, files.file drf' = Some f -> files w1 !! f = Some st ->
          closed st = false -> r = kernelWrite p w1)
    /\ (length (writesOf (newCalls w w')) <= 1)%nat.
Proof.
  intros p drf w.
  assert (sync.locked (files.mu drf) = false) as H1 by reflexivity.
  split; [exact H1|].
  exact (Write_result_verbatim p drf w H1).
Defined.

(** ** Replacing the name generator *)

(** C7. [SetNameGenerator] replaces the name generator and nothing else:
    the file held, the time of the last rotation, the duration and the
    directory keep their values, and the process is as before, so the
    open file keeps its name. A write that does not roll is not affected
    by the replacement; the next write that rolls asks the operating
    system, as its first call, for the file that the new generator
    names. *)
Theorem SetNameGenerator_frame
    (g : files.NameGenerator) (drf : files.DurationRollingFile) (w : World) :
  sync.locked (files.mu drf) = false ->
  exists drf',
    files.SetNameGenerator g drf w = (Done drf', w)
    /\ files.nameGenerator drf' = g
    /\ files.file drf' = files.file drf
    /\ files.lastTime drf' = files.lastTime drf
    /\ files.duration drf' = files.duration drf
    /\ files.directory drf' = files.directory drf
    /\ files.mu drf' = files.mu drf
    /\ (forall p w2, ~ qualifies drf (clock w2) ->
          exists r w2',
            files.Write p drf w2 = (Done (r, drf), w2')
            /\ files.Write p drf' w2 = (Done (r, drf'), w2'))
    /\ (forall p w2, qualifies drf (clock w2) ->
          exists r drf2 w2' later result,
            files.Write p drf' w2 = (Done (r, drf2), w2')
            /\ files.nameGenerator drf2 = g
            /\ calls w2'
               = later
                 ++ CreateCall
                      (files.NextName g (files.directory drf) (clock w2)
                         (random w2)).1 result
                 :: calls w2).
Proof.
  intros Hfree. exists (files.set_nameGenerator drf g).
  split.
  { unfold files.SetNameGenerator, sync.Lock, sync.Unlock. io_unfold.
    rewrite Hfree. simpl.
    by rewrite set_mu_set_nameGenerator, set_mu_set_mu, set_mu_unlocked. }
  repeat split.
  - intros p w2 Hq.
    destruct (os_Write_returns (files.file drf) p w2) as (r & w2' & Hw).
    exists r, w2'. split; by apply Write_keeps.
  - intros p w2 Hq. set (drf' := files.set_nameGenerator drf g).
    assert (qualifies drf' (clock w2)) as Hq' by done.
    destruct (Write_returns p drf' w2 Hfree)
      as (r & drf2 & w1 & w2' & He & Hw & HW).
    rewrite ensureFileIsCorrect_rolls in He by done.
    destruct (files.NextName g (files.directory drf) (clock w2) (random w2))
      as [name random'] eqn:Hname.
    destruct (os_Write_newCalls _ _ _ _ _ Hw) as (lw & Hlw & _).
    destruct (createFails (kernel w2) (length (calls w2)) name) as [e|] eqn:Hc.
    + rewrite (rollingToNextFile_failure (clock w2) drf' w2 name random' e Hname Hc)
        in He. injection He as <- <-.
      exists r, drf', w2', lw, (inr e). by repeat split.
    + destruct (rollingToNextFile_success (clock w2) drf' w2 name random' Hname Hc)
        as (cerr & wc & Hclose & Hroll).
      rewrite Hroll in He. injection He as <- <-.
      destruct (os_Close_newCalls _ _ _ _ Hclose) as (lc & Hlc & _).
      eexists r, _, w2', (lw ++ lc), (inl (nextFile w2)).
      split; [exact HW|]. split; [done|].
      by rewrite Hlw, Hlc, <- app_assoc.
Qed.

Lemma SetNameGenerator_frame_witness :
  let g := Sample.bySecond in
  let drf := Sample.holding (500 * time.Millisecond) in
  let w := Sample.running Sample.calm in
  sync.locked (files.mu drf) = false
  /\ exists drf',
    files.SetNameGenerator g drf w = (Done drf', w)
    /\ files.nameGenerator drf' = g
    /\ files.file drf' = files.file drf
    /\ files.lastTime drf' = files.lastTime drf
    /\ files.duration drf' = files.duration drf
    /\ files.directory drf' = files.directory drf
    /\ files.mu drf' = files.mu drf
    /\ (forall p w2, ~ qualifies drf (clock w2) ->
          exists r w2',
            files.Write p drf w2 = (Done (r, drf), w2')
            /\ files.Write p drf' w2 = (Done (r, drf'), w2'))
    /\ (forall p w2, qualifies drf (clock w2) ->
          exists r drf2 w2' later result,
            files.Write p drf' w2 = (Done (r, drf2), w2')
            /\ files.nameGenerator drf2 = g
            /\ calls w2'
               = later
                 ++ CreateCall
                      (files.NextName g (files.directory drf) (clock w2)
                         (random w2)).1 result
                 :: calls w2).
Proof.
  intros g drf w.
  assert (sync.locked (files.mu drf) = false) as H1 by reflexivity.
  split; [exact H1|].
  exact (SetNameGenerator_frame g drf w H1).
Defined.

(** ** Construction *)

(** C5. [NewDurationRollingFile] with a duration below one second panics,
    and the process is as before: no file has been created, opened or
    written. With a duration of one second or more it returns a rolling
    file that holds no file, and the process is as before as well. *)
Theorem NewDurationRollingFile_floor
    (directory : string) (dur : time.Duration) (w : World) :
  (dur < 1 * time.Second ->
   exists v, files.NewDurationRollingFile directory dur w = (Panic v, w))
  /\ (1 * time.Second <= dur ->
      exists drf,
        files.NewDurationRollingFile directory dur w = (Done drf, w)
        /\ files.file drf = None
        /\ files.directory drf = directory
        /\ files.duration drf = dur
        /\ sync.locked (files.mu drf) = false).
Proof.
  split; intros H.
  - eexists. by apply NewDurationRollingFile_refuses.
  - eexists. split; [by apply NewDurationRollingFile_accepts|]. by repeat split.
Qed.

Lemma NewDurationRollingFile_floor_witness :
  (999 * time.Millisecond < 1 * time.Second
   /\ exists v,
        files.NewDurationRollingFile "logs" (999 * time.Millisecond)
          (Sample.start Sample.calm)
        = (Panic v, Sample.start Sample.calm))
  /\ (1 * time.Second <= 1 * time.Second
      /\ exists drf,
           files.NewDurationRollingFile "logs" (1 * time.Second)
             (Sample.start Sample.calm)
           = (Done drf, Sample.start Sample.calm)
           /\ files.file drf = None
           /\ files.directory drf = "logs"%string
           /\ files.duration drf = 1 * time.Second
           /\ sync.locked (files.mu drf) = false).
Proof.
  assert (999 * time.Millisecond < 1 * time.Second) as H1 by reflexivity.
  assert (1 * time.Second <= 1 * time.Second) as H2 by (vm_compute; discriminate).
  split; (split; [assumption|]).
  - exact (proj1 (NewDurationRollingFile_floor "logs" (999 * time.Millisecond)
                    (Sample.start Sample.calm)) H1).
  - exact (proj2 (NewDurationRollingFile_floor "logs" (1 * time.Second)
                    (Sample.start Sample.calm)) H2).
Defined.

(** ** The default file name *)

Lemma append_empty (s : string) : String.append s EmptyString = s.
Proof.
  induction s as [|c s IH]; [reflexivity|].
  change (String c (String.append s EmptyString) = String c s). by rewrite IH.
Qed.

(** The layout of the default name spells YYYYMMDD-HHMMSS. *)
Lemma Format_stamp (now : time.Time) :
  time.Format now "20060102-150405" = stamp now.
Proof.
  unfold time.Format, stamp.
  cbn -[time.Date time.Clock time.appendInt].
  destruct (time.Date now) as [[year month] day].
  destruct (time.Clock now) as [[hour min] sec].
  by rewrite append_empty.
Qed.

(** ** The calendar *)

Section Calendar.

(** A check made on [count] numbers in a row holds of each of them. *)
Lemma checkedFrom_spec (P : Z -> bool) (count : nat) :
  forall a, checkedFrom P a count = true ->
  forall z, a <= z < a + Z.of_nat count -> P z = true.
Proof.
  induction count as [|c IH]; intros a Hall z Hz; [lia|].
  cbn [checkedFrom] in Hall. apply andb_prop in Hall as [Ha Hrest].
  destruct (decide (z = a)) as [->|Hne]; [done|].
  apply (IH (a + 1) Hrest). lia.
Qed.

Lemma checked_below (P : Z -> bool) (n : Z) :
  checkedFrom P 0 (Z.to_nat n) = true ->
  forall z, 0 <= z < n -> P z = true.
Proof.
  intros Hall z Hz. apply (checkedFrom_spec P (Z.to_nat n) 0 Hall).
  rewrite Z2Nat.id; lia.
Qed.

Lemma civil_range (doe y m d : Z) :
  0 <= doe < 146097 -> time.civil doe = (y, m, d) ->
  0 <= y <= 400 /\ 1 <= m <= 12 /\ 1 <= d <= 31.
Proof.
  intros Hdoe Hc.
  assert (civilInRange doe = true) as H.
  { apply (checked_below civilInRange 146097); [vm_compute; reflexivity|lia]. }
  unfold civilInRange in H. rewrite Hc in H.
  repeat (apply andb_prop in H; destruct H as [H ?]). lia.
Qed.

Lemma Date_range (t : time.Time) (y m d : Z) :
  time.Date t = (y, m, d) -> 1 <= m <= 12 /\ 1 <= d <= 31.
Proof.
  unfold time.Date.
  destruct (time.civil _) as [[y0 m0] d0] eqn:Hc. intros [= <- <- <-].
  eapply civil_range in Hc; [lia|]. by apply Z.mod_pos_bound.
Qed.

Lemma Clock_range (t : time.Time) (h m s : Z) :
  time.Clock t = (h, m, s) -> 0 <= h < 24 /\ 0 <= m < 60 /\ 0 <= s < 60.
Proof.
  unfold time.Clock. intros [= <- <- <-].
  pose proof (Z.mod_pos_bound (time.abs t) 86400 eq_refl).
  pose proof (Z.mod_pos_bound (time.abs t `mod` 86400) 3600 eq_refl).
  pose proof (Z.mod_pos_bound (time.abs t `mod` 86400) 60 eq_refl).
  repeat split; try lia.
  - apply Z.div_pos; lia.
  - apply Z.div_lt_upper_bound; lia.
  - apply Z.div_pos; lia.
  - apply Z.div_lt_upper_bound; lia.
Qed.

Lemma appendInt_two_digits (x : Z) :
  0 <= x < 100 -> digits 2 (time.appendInt x 2) = true.
Proof.
  apply (checked_below (fun x => digits 2 (time.appendInt x 2)) 100).
  vm_compute; reflexivity.
Qed.

Lemma appendInt_four_digits (x : Z) :
  0 <= x < 10000 -> digits 4 (time.appendInt x 4) = true.
Proof.
  apply (checked_below (fun x => digits 4 (time.appendInt x 4)) 10000).
  vm_compute; reflexivity.
Qed.

(** In the years 0 to 9999 the stamp is made of four digits for the year,
    two for the month, two for the day, a dash, and two digits each for
    the hour, the minute and the second. *)
Lemma stamp_shape (t : time.Time) :
  0 <= (time.Date t).1.1 <= 9999 ->
  exists YYYY MM DD hh mm ss,
    stamp t
    = String.append YYYY
        (String.append MM
           (String.append DD
              (String.append "-"
                 (String.append hh (String.append mm ss)))))
    /\ digits 4 YYYY = true /\ digits 2 MM = true /\ digits 2 DD = true
    /\ digits 2 hh = true /\ digits 2 mm = true /\ digits 2 ss = true.
Proof.
  intros Hy. unfold stamp.
  destruct (time.Date t) as [[year month] day] eqn:HD.
  destruct (time.Clock t) as [[hour min] sec] eqn:HC.
  apply Date_range in HD. apply Clock_range in HC. simpl in Hy.
  eexists _, _, _, _, _, _. split; [reflexivity|].
  repeat split;
    (apply appendInt_four_digits || apply appendInt_two_digits); lia.
Qed.

End Calendar.

(** ** The random generator *)

Section Random.

Import rand.

Lemma Int63_range r : 0 <= (Int63 r).1 < 2 ^ 63.
Proof. simpl. by apply Z.mod_pos_bound. Qed.

Lemma Int31_range r : 0 <= (Int31 r).1 < 2 ^ 31.
Proof.
  unfold Int31. pose proof (Int63_range r) as H.
  destruct (Int63 r) as [v r']. simpl in *.
  rewrite Z.shiftr_div_pow2 by lia. split.
  - apply Z.div_pos; lia.
  - apply Z.div_lt_upper_bound; lia.
Qed.

(** A value that settles is above no bound of a loop: the remainder that
    [Int31n] and [Int63n] subtract is below half of the range. *)
Lemma mod_below_half (m n : Z) : 0 < n <= 2 * m -> (2 * m) mod n < m.
Proof.
  intros [Hn Hle2]. destruct (Z_le_gt_dec n m) as [Hle|Hgt].
  - pose proof (Z.mod_pos_bound (2 * m) n Hn). lia.
  - replace (2 * m) with ((2 * m - n) + 1 * n) by lia.
    rewrite Z.mod_add by lia. rewrite Z.mod_small; lia.
Qed.

Lemma settles_Int63 (n : Z) (r : Rand) :
  0 < n < 2 ^ 63 -> settles (source r (drawn r)) ->
  (Int63 r).1 <= 2 ^ 63 - 1 - (2 ^ 63) mod n.
Proof.
  intros Hn Hs. unfold settles in Hs. simpl.
  pose proof (mod_below_half (2 ^ 62) n) as H.
  change (2 * 2 ^ 62) with (2 ^ 63) in H. lia.
Qed.

Lemma settles_Int31 (n : Z) (r : Rand) :
  0 < n < 2 ^ 31 -> settles (source r (drawn r)) ->
  (Int31 r).1 <= 2 ^ 31 - 1 - (2 ^ 31) mod n.
Proof.
  intros Hn Hs. unfold settles in Hs. unfold Int31. simpl.
  pose proof (mod_below_half (2 ^ 30) n) as H.
  change (2 * 2 ^ 30) with (2 ^ 31) in H.
  rewrite Z.shiftr_div_pow2 by lia.
  assert (source r (drawn r) mod 2 ^ 63 / 2 ^ 32 < 2 ^ 30); [|lia].
  apply Z.div_lt_upper_bound; [lia|]. change (2 ^ 32 * 2 ^ 30) with (2 ^ 62). lia.
Qed.

(** The values that a loop may take are those of the source from the next
    one on; when one of the first [fuel] settles, or the value in hand is
    not above [max], the loop ends on a value that is not above [max]. *)
Lemma redraw_accepts (draw : Rand -> Z * Rand) (max : Z)
    (Hdraw : forall r, settles (source r (drawn r)) -> (draw r).1 <= max)
    (Hnext : forall r, (draw r).2 = advance r) :
  forall (fuel : nat) (v : Z) (r : Rand),
    v <= max
    \/ (exists j, (j < fuel)%nat /\ settles (source r (drawn r + j)%nat)) ->
    (redraw draw max fuel v r).1 <= max.
Proof.
  induction fuel as [|fuel IH]; intros v r H; simpl.
  - destruct (Z.gtb_spec v max) as [Hgt|Hle]; [|done].
    destruct H as [H|(j & Hj & _)]; simpl; lia.
  - destruct (Z.gtb_spec v max) as [Hgt|Hle]; [|done].
    destruct H as [H|(j & Hj & Hs)]; [lia|].
    pose proof (Hdraw r) as Hd. pose proof (Hnext r) as Hn.
    destruct (draw r) as [v' r']. simpl in Hd, Hn. subst r'.
    apply IH. destruct j as [|j].
    + left. apply Hd. by rewrite Nat.add_0_r in Hs.
    + right. exists j. split; [lia|]. simpl.
      by replace (S (drawn r + j))%nat with (drawn r + S j)%nat by lia.
Qed.

(** The loops of [Int31n] and [Int63n] end on a value that they do not
    draw again: the fuel [patience r] is never used up. *)
Lemma Int31n_loop_ends (n : Z) (r : Rand) :
  0 < n < 2 ^ 31 ->
  (redraw Int31 (2 ^ 31 - 1 - 2 ^ 31 mod n) (patience r)
     (Int31 r).1 (Int31 r).2).1
  <= 2 ^ 31 - 1 - 2 ^ 31 mod n.
Proof.
  intros Hn. apply redraw_accepts.
  - intros r0. by apply settles_Int31.
  - done.
  - destruct (fair r (drawn r)) as (j & Hj & Hs). destruct j as [|j].
    + left. apply settles_Int31; [done|]. by rewrite Nat.add_0_r in Hs.
    + right. exists j. split; [lia|]. simpl.
      by replace (S (drawn r + j))%nat with (drawn r + S j)%nat by lia.
Qed.

Lemma Int63n_loop_ends (n : Z) (r : Rand) :
  0 < n < 2 ^ 63 ->
  (redraw Int63 (2 ^ 63 - 1 - 2 ^ 63 mod n) (patience r)
     (Int63 r).1 (Int63 r).2).1
  <= 2 ^ 63 - 1 - 2 ^ 63 mod n.
Proof.
  intros Hn. apply redraw_accepts.
  - intros r0. by apply settles_Int63.
  - done.
  - destruct (fair r (drawn r)) as (j & Hj & Hs). destruct j as [|j].
    + left. apply settles_Int63; [done|]. by rewrite Nat.add_0_r in Hs.
    + right. exists j. split; [lia|]. simpl.
      by replace (S (drawn r + j))%nat with (drawn r + S j)%nat by lia.
Qed.

(** The loop keeps what every value drawn has. *)
Lemma redraw_keeps (P : Z -> Prop) (draw : Rand -> Z * Rand) (max : Z)
    (Hdraw : forall r, P (draw r).1) :
  forall (fuel : nat) (v : Z) (r : Rand),
    P v -> P (redraw draw max fuel v r).1.
Proof.
  induction fuel as [|fuel IH]; intros v r H; simpl.
  - by destruct (v >? max).
  - destruct (v >? max); [|done].
    pose proof (Hdraw r) as Hd. destruct (draw r) as [v' r']. by apply IH.
Qed.

Lemma land_le_r (a b : Z) : 0 <= b -> Z.land a b <= b.
Proof.
  intros Hb.
  pose proof (Z.add_lor_land (Z.ldiff b a) (Z.land b a)) as H.
  rewrite Z.lor_ldiff_and in H.
  assert (Z.land (Z.ldiff b a) (Z.land b a) = 0) as H0.
  { apply Z.bits_inj'. intros n Hn.
    rewrite !Z.land_spec, Z.ldiff_spec, Z.bits_0.
    by destruct (Z.testbit b n), (Z.testbit a n). }
  rewrite H0 in H.
  assert (0 <= Z.ldiff b a) by (apply Z.ldiff_nonneg; lia).
  rewrite (Z.land_comm a b). lia.
Qed.

Lemma land_range (v n : Z) : 0 <= v -> 0 < n -> 0 <= Z.land v (n - 1) < n.
Proof.
  intros Hv Hn. split.
  - apply Z.land_nonneg. lia.
  - pose proof (land_le_r v (n - 1)). lia.
Qed.

Lemma Intn_range (n : Z) (r : rand.Rand) :
  0 < n -> 0 <= (rand.Intn n r).1 < n.
Proof.
  intros H. unfold Intn, Int31n, Int63n.
  destruct (n <=? 2 ^ 31 - 1); destruct (Z.land n (n - 1) =? 0).
  - pose proof (Int31_range r). destruct (Int31 r) as [v r']. simpl in *.
    apply land_range; lia.
  - pose proof (Int31_range r) as H0. destruct (Int31 r) as [v r'].
    pose proof (redraw_keeps (fun v => 0 <= v) Int31
                  (2 ^ 31 - 1 - 2 ^ 31 mod n)
                  (fun r => proj1 (Int31_range r)) (patience r) v r'
                  (proj1 H0)) as Hv.
    destruct (redraw _ _ _ _ _) as [v1 r1]. simpl in *.
    apply Z.rem_bound_pos; lia.
  - pose proof (Int63_range r). destruct (Int63 r) as [v r'] eqn:E. simpl in *.
    apply land_range; lia.
  - pose proof (Int63_range r) as H0. destruct (Int63 r) as [v r'] eqn:E.
    pose proof (redraw_keeps (fun v => 0 <= v) Int63
                  (2 ^ 63 - 1 - 2 ^ 63 mod n)
                  (fun r => proj1 (Int63_range r)) (patience r) v r'
                  (proj1 H0)) as Hv.
    destruct (redraw _ _ _ _ _) as [v1 r1]. simpl in *.
    apply Z.rem_bound_pos; lia.
Qed.

(** [Intn 1000] reduces a value of 31 bits that is not above 2147482999,
    the last of the values of which every remainder is as likely. *)
Lemma Intn_1000_accepted (r : Rand) :
  exists v r',
    Intn 1000 r = (Z.rem v 1000, r') /\ 0 <= v <= 2147482999.
Proof.
  pose proof (Int31n_loop_ends 1000 r) as Hend.
  pose proof (redraw_keeps (fun v => 0 <= v) Int31 (2 ^ 31 - 1 - 2 ^ 31 mod 1000)
                (fun r => proj1 (Int31_range r)) (patience r)
                (Int31 r).1 (Int31 r).2 (proj1 (Int31_range r))) as Hpos.
  change (2 ^ 31 - 1 - 2 ^ 31 mod 1000) with 2147482999 in *.
  unfold Intn, Int31n.
  change (1000 <=? 2 ^ 31 - 1) with true.
  change (Z.land 1000 (1000 - 1) =? 0) with false.
  change (2 ^ 31 - 1 - 2 ^ 31 mod 1000) with 2147482999.
  destruct (Int31 r) as [v0 r0]. simpl in Hend, Hpos. cbv iota beta zeta.
  destruct (redraw Int31 2147482999 (patience r) v0 r0) as [v r'].
  exists v, r'. simpl in *. split; [done|]. split; [done|]. apply Hend. lia.
Qed.

End Random.

(** C8. For every directory and time, the default name is the join of the
    directory with the time formatted as YYYYMMDD-HHMMSS, a dash, a number
    from 0 to 999 drawn from the random generator, and the fixed suffix
    [".log"]. *)
Theorem nextFilename_default_name
    (directory : string) (now : time.Time) (random : rand.Rand) :
  exists n,
    0 <= n <= 999
    /\ n = (rand.Intn 1000 random).1
    /\ (logit.nextFilename directory now random).1
       = path.Join
           [directory;
            String.append (stamp now)
              (String.append "-" (String.append (strconv.Itoa n) ".log"))].
Proof.
  exists (rand.Intn 1000 random).1.
  pose proof (Intn_range 1000 random eq_refl) as Hn.
  split; [lia|]. split; [done|].
  unfold logit.nextFilename.
  destruct (rand.Intn 1000 random) as [n random'].
  by rewrite Format_stamp.
Qed.

(** The name that the comment of [nextFilename] gives as an example. *)
Lemma default_name_at_noon :
  (logit.nextFilename "logs" Sample.noon Sample.draws).1
  = "logs/20200304-145246-45.log"%string.
Proof. vm_compute. reflexivity. Qed.

(** ** The name generator and the random generator *)

(** C9 as stated fails: two invocations one after the other, with the
    same directory and the same time, return different paths, the first
    one ending in 45 and the second one in 46. *)
Lemma nextFilename_same_inputs_different_paths :
  (logit.nextFilename "logs" Sample.noon Sample.draws).1
  <> (logit.nextFilename "logs" Sample.noon
        (logit.nextFilename "logs" Sample.noon Sample.draws).2).1.
Proof. vm_compute. intros H. discriminate H. Qed.

(** C9, amended. The default name is a function of the directory, the
    time and the number drawn from the shared random generator: two
    invocations with the same directory and the same time return the same
    path whenever they draw the same number. *)
Theorem nextFilename_same_draw_same_path
    (directory : string) (now : time.Time) (r1 r2 : rand.Rand) :
  (rand.Intn 1000 r1).1 = (rand.Intn 1000 r2).1 ->
  (logit.nextFilename directory now r1).1
  = (logit.nextFilename directory now r2).1.
Proof.
  intros H. unfold logit.nextFilename.
  destruct (rand.Intn 1000 r1) as [n1 r1'].
  destruct (rand.Intn 1000 r2) as [n2 r2'].
  simpl in H. by subst n2.
Qed.

Lemma nextFilename_same_draw_same_path_witness :
  let r1 := Sample.draws in
  let r2 := Sample.steady in
  (rand.Intn 1000 r1).1 = (rand.Intn 1000 r2).1
  /\ (logit.nextFilename "logs" Sample.noon r1).1
     = (logit.nextFilename "logs" Sample.noon r2).1.
Proof.
  intros r1 r2.
  assert ((rand.Intn 1000 r1).1 = (rand.Intn 1000 r2).1) as H by reflexivity.
  split; [exact H|].
  exact (nextFilename_same_draw_same_path "logs" Sample.noon r1 r2 H).
Defined.

(** A value of the source above 2147482999 is not reduced: [Intn 1000]
    draws the next one, so that this invocation takes two values of the
    source and the name ends in 46. *)
Lemma nextFilename_draws_again :
  (logit.nextFilename "logs" Sample.noon Sample.redrawing).1
  = "logs/20200304-145246-46.log"%string
  /\ rand.drawn (logit.nextFilename "logs" Sample.noon Sample.redrawing).2
     = 2%nat.
Proof. split; vm_compute; reflexivity. Qed.

(** ** Writes in a row across one rotation *)

Section Serial.

Import files.

Lemma holdsOpen_atTime drf f t w :
  holdsOpen drf f w -> holdsOpen drf f (atTime t w).
Proof. done. Qed.

(** One write that does not roll. *)
Lemma Write_keeps_step p drf w f :
  sync.locked (mu drf) = false ->
  ~ qualifies drf (clock w) ->
  holdsOpen drf f w ->
  exists r w' n err,
    Write p drf w = (Done (r, drf), w')
    /\ calls w' = WriteCall f p n err :: calls w
    /\ holdsOpen drf f w'
    /\ nextFile w' = nextFile w
    /\ kernel w' = kernel w.
Proof.
  intros Hfree Hq (Hf & (st & Hst & Hcl) & Hlt).
  destruct (os_Write_open _ _ p _ Hst Hcl) as (n & err & w' & Hw & Hcalls & _).
  destruct (os_Write_frame _ _ _ _ _ Hw) as (Hk & Hn & _ & _ & Hkeep).
  exists (Z.of_nat n, err), w', n, err.
  split; [apply Write_keeps; [done..|by rewrite Hf]|].
  split; [done|]. split; [|done].
  split; [done|]. split; [|by rewrite Hn].
  destruct (Hkeep _ _ Hst) as (st' & Hst' & Hcl' & _).
  exists st'. split; [done|congruence].
Qed.

Lemma writeEach_app ws1 : forall ws2 drf w drf1 w1,
  writeEach ws1 drf w = (Done drf1, w1) ->
  writeEach (ws1 ++ ws2) drf w = writeEach ws2 drf1 w1.
Proof.
  induction ws1 as [|[t p] ws1 IH]; intros ws2 drf w drf1 w1 H.
  - by injection H as <- <-.
  - cbn [writeEach app] in *. unfold resumeAt in *. io_unfold.
    destruct (Write p drf (atTime t w)) as [[[r drf0]| |] w0]; [|done..].
    by apply IH.
Qed.

(** Writes in a row of which none qualifies: no file is asked for, and
    all the bytes go to the file held. *)
Lemma writeEach_keeps ws : forall drf w f,
  sync.locked (mu drf) = false ->
  holdsOpen drf f w ->
  Forall (fun tp => ~ qualifies drf tp.1) ws ->
  exists w' l,
    writeEach ws drf w = (Done drf, w')
    /\ calls w' = l ++ calls w
    /\ creations l = 0%nat
    /\ rev (writesOf l) = map (fun tp => (f, tp.2)) ws
    /\ holdsOpen drf f w'
    /\ nextFile w' = nextFile w
    /\ kernel w' = kernel w.
Proof.
  induction ws as [|[t p] ws IH]; intros drf w f Hfree Hopen Hall.
  - exists w, []. by split_and!.
  - apply Forall_cons in Hall as [Hq Hall]. simpl in Hq.
    destruct (Write_keeps_step p drf (atTime t w) f Hfree Hq
                (holdsOpen_atTime _ _ t _ Hopen))
      as (r & w1 & n & err & HW & Hc1 & Hopen1 & Hn1 & Hk1).
    destruct (IH drf w1 f Hfree Hopen1 Hall)
      as (w' & l & Hrest & Hc & Hcr & Hwr & Hopen' & Hn' & Hk').
    exists w', (l ++ [WriteCall f p n err]).
    split.
    { cbn [writeEach]. unfold resumeAt. io_unfold. by rewrite HW. }
    split; [by rewrite Hc, Hc1, <- app_assoc|].
    split.
    { by rewrite creations_app, Hcr. }
    split.
    { by rewrite writesOf_app, rev_app_distr, Hwr. }
    split; [done|]. split; [by rewrite Hn', Hn1|by rewrite Hk', Hk1].
Qed.

(** One write that rolls. *)
Lemma Write_rolls_step p drf w f :
  sync.locked (mu drf) = false ->
  qualifies drf (clock w) ->
  holdsOpen drf f w ->
  neverFailsCreate (kernel w) ->
  exists r w' l,
    Write p drf w
    = (Done (r, set_file_lastTime drf (Some (nextFile w)) (clock w)), w')
    /\ calls w' = l ++ calls w
    /\ creations l = 1%nat
    /\ writesOf l = [(nextFile w, p)]
    /\ holdsOpen (set_file_lastTime drf (Some (nextFile w)) (clock w))
         (nextFile w) w'
    /\ kernel w' = kernel w.
Proof.
  intros Hfree Hq (Hf & (st & Hst & Hcl) & Hlt) Hcreate.
  destruct (NextName (nameGenerator drf) (directory drf) (clock w) (random w))
    as [name random'] eqn:Hname.
  destruct (os_Close_returns (file drf) (created name random' w))
    as (cerr & wc & Hclose).
  destruct (os_Close_frame _ _ _ _ Hclose) as (Hk & Hn & _ & Hother & _).
  destruct (os_Close_newCalls _ _ _ _ Hclose) as (lc & Hlc & Hcc & Hwc).
  assert (files wc !! nextFile w
          = Some {| fileName := name; closed := false; written := [] |}) as Hnew.
  { rewrite Hother; [apply lookup_insert_eq|]. rewrite Hf. intros [= ->]. lia. }
  destruct (os_Write_open _ _ p _ Hnew eq_refl) as (n & err & w' & Hw & Hcalls & _).
  destruct (os_Write_frame _ _ _ _ _ Hw) as (Hk' & Hn' & _ & _ & Hkeep').
  exists (Z.of_nat n, err), w',
    (WriteCall (nextFile w) p n err :: lc ++ [CreateCall name (inl (nextFile w))]).
  split; [by eapply Write_rolls_success|].
  split; [rewrite Hcalls, Hlc; simpl; by rewrite <- app_assoc|].
  split.
  { change (creations (WriteCall (nextFile w) p n err :: ?l)) with (creations l).
    by rewrite creations_app, Hcc. }
  split.
  { simpl. by rewrite writesOf_app, Hwc. }
  split; [|by rewrite Hk', Hk].
  split; [done|]. split; [|rewrite Hn', Hn; simpl; lia].
  destruct (Hkeep' _ _ Hnew) as (st' & Hst' & Hcl' & _). eauto.
Qed.

(** Writes made one after the other across one rotation: the writes in
    [before] come too early to roll, the write [(t1, p1)] comes when the
    duration has passed, and the writes in [after] come less than the
    duration after it. When files can be created, exactly one file is
    asked for, the bytes of [before] go to the file held at the start and
    the bytes of the other writes to the new file, each of them once and
    in the order of the writes. *)
Lemma writeEach_rotates_once before t1 p1 after drf w f :
  sync.locked (mu drf) = false ->
  holdsOpen drf f w ->
  neverFailsCreate (kernel w) ->
  Forall (fun tp => time.Sub tp.1 (lastTime drf) < duration drf) before ->
  duration drf <= time.Sub t1 (lastTime drf) ->
  Forall (fun tp => time.Sub tp.1 t1 < duration drf) after ->
  exists drf' w',
    writeEach (before ++ (t1, p1) :: after) drf w = (Done drf', w')
    /\ creations (newCalls w w') = 1%nat
    /\ rev (writesOf (newCalls w w'))
       = map (fun tp => (f, tp.2)) before
         ++ map (fun tp => (nextFile w, tp.2)) ((t1, p1) :: after)
    /\ file drf' = Some (nextFile w)
    /\ lastTime drf' = t1.
Proof.
  intros Hfree Hopen Hcreate Hbefore Hroll Hafter.
  pose proof Hopen as (Hf & _ & _).
  destruct (writeEach_keeps before drf w f Hfree Hopen)
    as (w1 & l1 & H1 & Hc1 & Hcr1 & Hwr1 & Hopen1 & Hn1 & Hk1).
  { eapply Forall_impl; [exact Hbefore|]. intros [t p] Hlt [Hnil|Hge]; simpl in *.
    - congruence.
    - lia. }
  destruct (Write_rolls_step p1 drf (atTime t1 w1) f Hfree)
    as (r2 & w2 & l2 & H2 & Hc2 & Hcr2 & Hwr2 & Hopen2 & Hk2).
  { by right. }
  { by apply holdsOpen_atTime. }
  { simpl. by rewrite Hk1. }
  simpl in H2, Hc2, Hwr2, Hopen2, Hk2. rewrite Hn1 in *.
  set (drf2 := set_file_lastTime drf (Some (nextFile w)) t1) in *.
  destruct (writeEach_keeps after drf2 w2 (nextFile w) Hfree Hopen2)
    as (w3 & l3 & H3 & Hc3 & Hcr3 & Hwr3 & _).
  { eapply Forall_impl; [exact Hafter|]. intros [t p] Hlt [Hnil|Hge]; simpl in *.
    - discriminate.
    - lia. }
  exists drf2, w3. split.
  { rewrite (writeEach_app before _ drf w drf w1 H1).
    cbn [writeEach]. unfold resumeAt. io_unfold. by rewrite H2. }
  assert (calls w3 = (l3 ++ l2 ++ l1) ++ calls w) as Hcalls.
  { by rewrite Hc3, Hc2, Hc1, <- !app_assoc. }
  rewrite (newCalls_app _ _ _ Hcalls).
  split; [rewrite !creations_app; lia|].
  split; [|done].
  rewrite !writesOf_app, !rev_app_distr, Hwr1, Hwr3, Hwr2. simpl.
  by rewrite <- app_assoc.
Qed.

End Serial.

(** ** The mutex *)

Section Mutex.

Import files.

(** A [Write] leaves the mutex free. *)
Lemma Write_unlocks p drf w r drf' w' :
  sync.locked (mu drf) = false ->
  Write p drf w = (Done (r, drf'), w') ->
  sync.locked (mu drf') = false.
Proof.
  intros Hfree HW.
  destruct (Write_returns p drf w Hfree) as (r0 & drf1 & w1 & w2 & He & _ & HW').
  rewrite HW' in HW. injection HW as _ <- _.
  by rewrite (ensureFileIsCorrect_mu _ _ _ _ He).
Qed.

(** A [Write] on a mutex that is held waits, and does nothing. *)
Lemma Write_waits p drf w :
  sync.locked (mu drf) = true -> Write p drf w = (Blocked, w).
Proof.
  intros Hheld. unfold Write, sync.Lock. io_unfold. by rewrite Hheld.
Qed.

End Mutex.

(** ** Closing a rolling file *)

Section Closing.

Import files.

(** [Close] on a free mutex: the close of the file held, whose result is
    returned; the rolling file is as before. *)
Lemma Close_steps drf w err w' :
  sync.locked (mu drf) = false ->
  os.Close (file drf) w = (Done err, w') ->
  Close drf w = (Done (err, drf), w').
Proof.
  intros Hfree Hclose. unfold Close, sync.Lock, sync.Unlock. io_unfold.
  rewrite Hfree, Hclose. simpl. by rewrite set_mu_unlocked.
Qed.

(** The close of an open file reaches the operating system. *)
Lemma os_Close_open fd st w :
  files w !! fd = Some st -> closed st = false ->
  os.Close (Some fd) w
  = (Done (closeFails (kernel w) (length (calls w))),
     afterCall (CloseCall fd (closeFails (kernel w) (length (calls w))))
       (<[fd := {| fileName := fileName st; closed := true;
                   written := written st |}]> (files w))
       (nextFile w) w).
Proof. intros Hfd Hcl. unfold os.Close. by rewrite Hfd, Hcl. Qed.

(** The close of a file closed before reports it, and does nothing. *)
Lemma os_Close_closed fd st w :
  files w !! fd = Some st -> closed st = true ->
  os.Close (Some fd) w = (Done (Some ErrClosed), w).
Proof. intros Hfd Hcl. unfold os.Close. by rewrite Hfd, Hcl. Qed.

(** The write on a file closed before reports it, and does nothing. *)
Lemma os_Write_closed fd st b w :
  files w !! fd = Some st -> closed st = true ->
  os.Write (Some fd) b w = (Done (0, Some ErrClosed), w).
Proof. intros Hfd Hcl. unfold os.Write. by rewrite Hfd, Hcl. Qed.

Lemma running_holdsOpen (ago : time.Duration) (k : Kernel) :
  holdsOpen (Sample.holding ago) 0%nat (Sample.running k).
Proof.
  split; [reflexivity|]. split; [|simpl; lia].
  exists {| fileName := "logs/old.log"; closed := false;
            written := [x6f; x6b] |}.
  split; [|reflexivity]. unfold Sample.running. simpl.
  apply lookup_singleton_eq.
Qed.

(** [Close] on a rolling file that holds an open file. *)
Lemma Close_open drf f st w :
  sync.locked (mu drf) = false ->
  file drf = Some f ->
  files w !! f = Some st ->
  closed st = false ->
  exists w',
    Close drf w
    = (Done (closeFails (kernel w) (length (calls w)), drf), w')
    /\ files w' !! f
       = Some {| fileName := fileName st; closed := true;
                 written := written st |}
    /\ (forall g, g <> f -> files w' !! g = files w !! g)
    /\ newCalls w w'
       = [CloseCall f (closeFails (kernel w) (length (calls w)))]
    /\ nextFile w' = nextFile w
    /\ kernel w' = kernel w.
Proof.
  intros Hfree Hf Hst Hcl. eexists. split.
  - apply Close_steps; [done|]. rewrite Hf. by apply os_Close_open.
  - simpl. split; [by rewrite lookup_insert_eq|].
    split; [intros g Hg; by rewrite lookup_insert_ne|].
    split; [|done]. by apply (newCalls_app _ _ [_]).
Qed.

End Closing.

(** X1. [Close] on a rolling file that holds an open file returns what the
    operating system reports for the close, an error or none; in both
    cases the file is closed with its bytes as they were, no other file is
    touched, and the rolling file still holds the file it held. *)
Theorem Close_returns_and_closes
    (drf : files.DurationRollingFile) (f : File) (st : FileState) (w : World) :
  sync.locked (files.mu drf) = false ->
  files.file drf = Some f ->
  files w !! f = Some st ->
  closed st = false ->
  exists w',
    files.Close drf w
    = (Done (closeFails (kernel w) (length (calls w)), drf), w')
    /\ files w' !! f
       = Some {| fileName := fileName st; closed := true;
                 written := written st |}
    /\ (forall g, g <> f -> files w' !! g = files w !! g)
    /\ newCalls w w'
       = [CloseCall f (closeFails (kernel w) (length (calls w)))].
Proof.
  intros Hfree Hf Hst Hcl.
  destruct (Close_open drf f st w Hfree Hf Hst Hcl)
    as (w' & HC & Hf' & Hother & Hcalls & _).
  by exists w'.
Qed.

Lemma Close_returns_and_closes_witness :
  let drf := Sample.holding (2 * time.Second) in
  let w := Sample.running Sample.faulty in
  let st := {| fileName := "logs/old.log"; closed := false;
               written := [x6f; x6b] |} in
  (sync.locked (files.mu drf) = false
   /\ files.file drf = Some 0%nat
   /\ files w !! 0%nat = Some st
   /\ closed st = false)
  /\ exists w',
    files.Close drf w
    = (Done (closeFails (kernel w) (length (calls w)), drf), w')
    /\ files w' !! 0%nat
       = Some {| fileName := fileName st; closed := true;
                 written := written st |}
    /\ (forall g, g <> 0%nat -> files w' !! g = files w !! g)
    /\ newCalls w w'
       = [CloseCall 0%nat (closeFails (kernel w) (length (calls w)))].
Proof.
  intros drf w st.
  assert (sync.locked (files.mu drf) = false) as H1 by reflexivity.
  assert (files.file drf = Some 0%nat) as H2 by reflexivity.
  assert (files w !! 0%nat = Some st) as H3 by (vm_compute; reflexivity).
  assert (closed st = false) as H4 by reflexivity.
  split; [auto|].
  exact (Close_returns_and_closes drf 0%nat st w H1 H2 H3 H4).
Defined.

(** X2. A rolling file that has just been made holds no file: closing it
    before any write returns the invalid argument error of a nil
    [*os.File], and the process is as before. *)
Theorem Close_before_first_Write
    (directory : string) (dur : time.Duration) (w : World) :
  files.minDuration <= dur ->
  exists drf,
    files.NewDurationRollingFile directory dur w = (Done drf, w)
    /\ files.Close drf w = (Done (Some ErrInvalid, drf), w).
Proof.
  intros Hdur. eexists. split; [by apply NewDurationRollingFile_accepts|].
  by apply Close_steps.
Qed.

Lemma Close_before_first_Write_witness :
  files.minDuration <= time.Hour
  /\ exists drf,
    files.NewDurationRollingFile "logs" time.Hour (Sample.start Sample.calm)
    = (Done drf, Sample.start Sample.calm)
    /\ files.Close drf (Sample.start Sample.calm)
       = (Done (Some ErrInvalid, drf), Sample.start Sample.calm).
Proof.
  assert (files.minDuration <= time.Hour) as H by (vm_compute; discriminate).
  split; [exact H|].
  exact (Close_before_first_Write "logs" time.Hour (Sample.start Sample.calm) H).
Defined.

(** X3. [Close] is not guarded against a second call: after a rolling
    file that holds a file has been closed, closing it again returns the
    error of a file already closed, and makes no call to the operating
    system. *)
Theorem Close_twice
    (drf : files.DurationRollingFile) (f : File) (st : FileState) (w : World) :
  sync.locked (files.mu drf) = false ->
  files.file drf = Some f ->
  files w !! f = Some st ->
  exists err w',
    files.Close drf w = (Done (err, drf), w')
    /\ forall t,
         files.Close drf (atTime t w') = (Done (Some ErrClosed, drf), atTime t w').
Proof.
  intros Hfree Hf Hst. destruct (closed st) eqn:Hcl.
  - exists (Some ErrClosed), w. split.
    + apply Close_steps; [done|]. rewrite Hf. by eapply os_Close_closed.
    + intros t. apply Close_steps; [done|]. rewrite Hf.
      by eapply os_Close_closed.
  - destruct (Close_open drf f st w Hfree Hf Hst Hcl) as (w' & HC & Hf' & _).
    eexists _, w'. split; [exact HC|].
    intros t. apply Close_steps; [done|]. rewrite Hf.
    by eapply os_Close_closed.
Qed.

Lemma Close_twice_witness :
  let drf := Sample.holding (2 * time.Second) in
  let w := Sample.running Sample.calm in
  let st := {| fileName := "logs/old.log"; closed := false;
               written := [x6f; x6b] |} in
  (sync.locked (files.mu drf) = false
   /\ files.file drf = Some 0%nat
   /\ files w !! 0%nat = Some st)
  /\ exists err w',
    files.Close drf w = (Done (err, drf), w')
    /\ forall t,
         files.Close drf (atTime t w') = (Done (Some ErrClosed, drf), atTime t w').
Proof.
  intros drf w st.
  assert (sync.locked (files.mu drf) = false) as H1 by reflexivity.
  assert (files.file drf = Some 0%nat) as H2 by reflexivity.
  assert (files w !! 0%nat = Some st) as H3 by (vm_compute; reflexivity).
  split; [auto|].
  exact (Close_twice drf 0%nat st w H1 H2 H3).
Defined.

(** X4. A rolling file is of no use right after [Close]: it still holds
    the closed file, so a [Write] that comes before the duration has
    passed since the last rotation does not roll; it returns a count of 0
    and the error of a file already closed, writes nothing, and makes no
    call to the operating system. *)
Theorem Write_after_Close_is_refused
    (drf : files.DurationRollingFile) (f : File) (w : World) :
  sync.locked (files.mu drf) = false ->
  holdsOpen drf f w ->
  exists err w',
    files.Close drf w = (Done (err, drf), w')
    /\ forall p t,
         time.Sub t (files.lastTime drf) < files.duration drf ->
         files.Write p drf (atTime t w')
         = (Done ((0, Some ErrClosed), drf), atTime t w').
Proof.
  intros Hfree (Hf & (st & Hst & Hcl) & _).
  destruct (Close_open drf f st w Hfree Hf Hst Hcl) as (w' & HC & Hf' & _).
  eexists _, w'. split; [exact HC|].
  intros p t Hlt. apply Write_keeps; [done| |].
  - intros [Hnil|Hge]; [congruence|simpl in Hge; lia].
  - rewrite Hf. by eapply os_Write_closed.
Qed.

Lemma Write_after_Close_is_refused_witness :
  let drf := Sample.holding (500 * time.Millisecond) in
  let w := Sample.running Sample.calm in
  (sync.locked (files.mu drf) = false /\ holdsOpen drf 0%nat w)
  /\ exists err w',
    files.Close drf w = (Done (err, drf), w')
    /\ forall p t,
         time.Sub t (files.lastTime drf) < files.duration drf ->
         files.Write p drf (atTime t w')
         = (Done ((0, Some ErrClosed), drf), atTime t w').
Proof.
  intros drf w.
  assert (sync.locked (files.mu drf) = false) as H1 by reflexivity.
  assert (holdsOpen drf 0%nat w) as H2 by apply running_holdsOpen.
  split; [auto|].
  exact (Write_after_Close_is_refused drf 0%nat w H1 H2).
Defined.

(** X5. [Close] does not retire a rolling file: once the duration has
    passed since the last rotation, the next [Write] rolls as usual; when
    the file can be created the bytes go to a new open file, which the
    rolling file holds from then on. *)
Theorem Write_after_Close_reopens
    (drf : files.DurationRollingFile) (f : File) (w : World) :
  sync.locked (files.mu drf) = false ->
  holdsOpen drf f w ->
  neverFailsCreate (kernel w) ->
  exists err w',
    files.Close drf w = (Done (err, drf), w')
    /\ forall p t,
         files.duration drf <= time.Sub t (files.lastTime drf) ->
         exists r drf2 w2,
           files.Write p drf (atTime t w') = (Done (r, drf2), w2)
           /\ files.file drf2 = Some (nextFile w)
           /\ files.lastTime drf2 = t
           /\ isOpen w2 (nextFile w)
           /\ lastWrite w2 = Some (nextFile w, p).
Proof.
  intros Hfree (Hf & (st & Hst & Hcl) & Hlt) Hcreate.
  destruct (Close_open drf f st w Hfree Hf Hst Hcl)
    as (w' & HC & Hf' & _ & _ & Hn & Hk).
  eexists _, w'. split; [exact HC|].
  intros p t Hge.
  destruct (files.NextName (files.nameGenerator drf) (files.directory drf)
              (clock (atTime t w')) (random (atTime t w')))
    as [name random'] eqn:Hname.
  destruct (Write_rolls_to_new p drf (atTime t w') name random')
    as (r & w2 & HW & Hlast & _ & _ & (st2 & Hst2 & Hcl2 & _) & _);
    [done|by right|done|simpl; rewrite Hk; apply Hcreate| |].
  { simpl. intros g Hg. rewrite Hn. rewrite Hf in Hg. injection Hg as <-. lia. }
  simpl in HW, Hlast, Hst2. rewrite Hn in *.
  eexists r, _, w2. split; [exact HW|]. split_and!; try done.
  by exists st2.
Qed.

Lemma Write_after_Close_reopens_witness :
  let drf := Sample.holding (500 * time.Millisecond) in
  let w := Sample.running Sample.calm in
  (sync.locked (files.mu drf) = false
   /\ holdsOpen drf 0%nat w
   /\ neverFailsCreate (kernel w))
  /\ exists err w',
    files.Close drf w = (Done (err, drf), w')
    /\ forall p t,
         files.duration drf <= time.Sub t (files.lastTime drf) ->
         exists r drf2 w2,
           files.Write p drf (atTime t w') = (Done (r, drf2), w2)
           /\ files.file drf2 = Some (nextFile w)
           /\ files.lastTime drf2 = t
           /\ isOpen w2 (nextFile w)
           /\ lastWrite w2 = Some (nextFile w, p).
Proof.
  intros drf w.
  assert (sync.locked (files.mu drf) = false) as H1 by reflexivity.
  assert (holdsOpen drf 0%nat w) as H2 by apply running_holdsOpen.
  assert (neverFailsCreate (kernel w)) as H3 by (intros t name; reflexivity).
  split; [auto|].
  exact (Write_after_Close_reopens drf 0%nat w H1 H2 H3).
Defined.

(** ** What any sequence of calls keeps *)

Section Invariants.

Import files.

Lemma isOpen_atTime t w f : isOpen (atTime t w) f <-> isOpen w f.
Proof. done. Qed.

(** A write closes and opens no file. *)
Lemma os_Write_isOpen f b w r w' :
  os.Write f b w = (Done r, w') -> forall g, isOpen w' g <-> isOpen w g.
Proof.
  unfold os.Write. destruct f as [fd|]; [|by intros [= <- <-]].
  destruct (files w !! fd) as [st|] eqn:Hfd; [|by intros [= <- <-]].
  destruct (closed st) eqn:Hcl; [by intros [= <- <-]|].
  assert (forall n err g,
    isOpen (afterCall (WriteCall fd b n err)
              (<[fd := {| fileName := fileName st; closed := false;
                          written := written st ++ take n b |}]> (files w))
              (nextFile w) w) g <-> isOpen w g) as Hgen.
  { intros n err g. unfold isOpen. simpl.
    destruct (decide (fd = g)) as [<-|Hne].
    - rewrite lookup_insert_eq, Hfd. split; intros _; eauto.
    - by rewrite lookup_insert_ne. }
  destruct (writeFails _ _ _) as [[k e]|]; intros [= <- <-]; apply Hgen.
Qed.

(** A close opens no file, and the file it is given is not open
    afterwards. *)
Lemma os_Close_isOpen f w err w' :
  os.Close f w = (Done err, w') ->
  forall g, isOpen w' g <-> isOpen w g /\ f <> Some g.
Proof.
  unfold os.Close. intros H g.
  destruct f as [fd|].
  2: { injection H as <- <-. split; [by intros Hopen|by intros [Hopen _]]. }
  destruct (files w !! fd) as [st|] eqn:Hfd.
  - destruct (closed st) eqn:Hcl; injection H as <- <-.
    + split; [|by intros [Hopen _]]. intros Hopen. split; [done|].
      intros [= ->]. destruct Hopen as (st' & Hst' & Hcl'). congruence.
    + unfold isOpen. simpl. destruct (decide (fd = g)) as [<-|Hne].
      * rewrite lookup_insert_eq. split; [|by intros [_ Hne]].
        intros (st' & [= <-] & Hcl'). done.
      * rewrite lookup_insert_ne by done. split; [|by intros [Hopen _]].
        intros Hopen. split; [done|congruence].
  - injection H as <- <-. split; [|by intros [Hopen _]]. intros Hopen.
    split; [done|]. intros [= ->]. destruct Hopen as (st' & Hst' & _).
    congruence.
Qed.

(** The files open after the rotation check. *)
Lemma ensureFileIsCorrect_isOpen drf w drf1 w1 :
  ensureFileIsCorrect drf w = (Done drf1, w1) ->
  forall g, isOpen w1 g ->
            file drf1 = Some g \/ (isOpen w g /\ file drf <> Some g).
Proof.
  intros H g Hopen.
  destruct (decide (isNil (file drf)
      || (time.Sub (clock w) (lastTime drf) >=? duration drf) = true)) as [Hq|Hq];
    rewrite qualifies_test in Hq.
  - rewrite ensureFileIsCorrect_rolls in H by done.
    destruct (NextName (nameGenerator drf) (directory drf) (clock w) (random w))
      as [name random'] eqn:Hname.
    destruct (createFails (kernel w) (length (calls w)) name) as [e|] eqn:Hc.
    + rewrite (rollingToNextFile_failure _ _ _ _ _ _ Hname Hc) in H.
      injection H as <- <-.
      destruct (decide (file drf = Some g)); [by left|by right].
    + destruct (rollingToNextFile_success (clock w) drf w name random' Hname Hc)
        as (cerr & wc & Hclose & Hroll).
      rewrite Hroll in H. injection H as <- <-.
      apply (os_Close_isOpen _ _ _ _ Hclose) in Hopen as [Hopen Hne].
      destruct (decide (g = nextFile w)) as [->|Hg]; [by left|right].
      split; [|done]. unfold isOpen, created in Hopen. simpl in Hopen.
      by rewrite lookup_insert_ne in Hopen.
  - rewrite ensureFileIsCorrect_keeps in H by done. injection H as <- <-.
    destruct (decide (file drf = Some g)); [by left|by right].
Qed.

(** The files open after a [Write]. *)
Lemma Write_isOpen p drf w r drf' w' :
  sync.locked (mu drf) = false ->
  Write p drf w = (Done (r, drf'), w') ->
  forall g, isOpen w' g ->
            file drf' = Some g \/ (isOpen w g /\ file drf <> Some g).
Proof.
  intros Hfree HW g Hopen.
  destruct (Write_returns p drf w Hfree) as (r0 & drf1 & w1 & w2 & He & Hw & HW').
  rewrite HW' in HW. injection HW as <- <- <-.
  apply (os_Write_isOpen _ _ _ _ _ Hw) in Hopen.
  by eapply ensureFileIsCorrect_isOpen.
Qed.

Lemma Close_returns drf w :
  sync.locked (mu drf) = false ->
  exists err w',
    os.Close (file drf) w = (Done err, w')
    /\ Close drf w = (Done (err, drf), w').
Proof.
  intros Hfree. destruct (os_Close_returns (file drf) w) as (err & w' & H).
  exists err, w'. split; [done|]. by apply Close_steps.
Qed.

Lemma SetNameGenerator_steps g drf w :
  sync.locked (mu drf) = false ->
  SetNameGenerator g drf w = (Done (set_nameGenerator drf g), w).
Proof.
  intros Hfree. unfold SetNameGenerator, sync.Lock, sync.Unlock. io_unfold.
  rewrite Hfree. simpl.
  by rewrite set_mu_set_nameGenerator, set_mu_set_mu, set_mu_unlocked.
Qed.

(** What one call keeps: it returns, the mutex is free again, the
    duration and the directory are as before, and when every open file
    was the one held this is so afterwards. *)
Lemma run_step (op : Op) drf w :
  sync.locked (mu drf) = false ->
  exists drf' w',
    run [op] drf w = (Done drf', w')
    /\ sync.locked (mu drf') = false
    /\ duration drf' = duration drf
    /\ directory drf' = directory drf
    /\ (onlyHeldOpen drf w -> onlyHeldOpen drf' w').
Proof.
  intros Hfree. destruct op as [t p|t|t g]; cbn [run]; unfold resumeAt; io_unfold.
  - destruct (Write_returns p drf (atTime t w) Hfree)
      as (r & drf1 & w1 & w2 & He & Hw & HW).
    rewrite HW. exists drf1, w2. split; [done|].
    pose proof (ensureFileIsCorrect_mu _ _ _ _ He) as Hmu.
    split; [by rewrite Hmu|].
    assert (duration drf1 = duration drf /\ directory drf1 = directory drf)
      as [Hd Hdir].
    { clear -He. unfold ensureFileIsCorrect, time_io.Now in He. io_unfold.
      destruct (isNil _ || _); [|by injection He as <- <-].
      unfold rollingToNextFile, callNextName, CreateFileOf in He. io_unfold.
      destruct (NextName _ _ _ _) as [name random']. simpl in He.
      destruct (createFails _ _ _); simpl in He; [by injection He as <- <-|].
      destruct (os.Close _ _) as [[cerr| |] wc]; [|done..].
      by injection He as <- <-. }
    split_and!; [done..|].
    intros Honly g Hopen.
    destruct (Write_isOpen _ _ _ _ _ _ Hfree HW g Hopen) as [|[Hg Hne]]; [done|].
    by apply Honly in Hg.
  - destruct (Close_returns drf (atTime t w) Hfree) as (err & w' & Hc & HC).
    rewrite HC. exists drf, w'. split_and!; [done..|].
    intros Honly g Hopen.
    apply (os_Close_isOpen _ _ _ _ Hc) in Hopen as [Hg Hne].
    by apply Honly in Hg.
  - rewrite (SetNameGenerator_steps g drf (atTime t w) Hfree).
    exists (set_nameGenerator drf g), (atTime t w). by split_and!.
Qed.

Lemma run_cons op ops drf w drf1 w1 :
  run [op] drf w = (Done drf1, w1) ->
  run (op :: ops) drf w = run ops drf1 w1.
Proof.
  destruct op as [t p|t|t g]; cbn [run]; unfold resumeAt; io_unfold.
  - destruct (Write p drf (atTime t w)) as [[[r d]| |] w0]; [|done..].
    by intros [= <- <-].
  - destruct (Close drf (atTime t w)) as [[[r d]| |] w0]; [|done..].
    by intros [= <- <-].
  - destruct (SetNameGenerator g drf (atTime t w)) as [[d| |] w0]; [|done..].
    by intros [= <- <-].
Qed.

Lemma run_keeps (ops : list Op) : forall drf w,
  sync.locked (mu drf) = false ->
  exists drf' w',
    run ops drf w = (Done drf', w')
    /\ sync.locked (mu drf') = false
    /\ duration drf' = duration drf
    /\ directory drf' = directory drf
    /\ (onlyHeldOpen drf w -> onlyHeldOpen drf' w').
Proof.
  induction ops as [|op ops IH]; intros drf w Hfree.
  - exists drf, w. by split_and!.
  - destruct (run_step op drf w Hfree)
      as (drf1 & w1 & H1 & Hfree1 & Hd1 & Hdir1 & Honly1).
    destruct (IH drf1 w1 Hfree1) as (drf' & w' & H & Hfree' & Hd & Hdir & Honly).
    exists drf', w'. rewrite (run_cons _ _ _ _ _ _ H1).
    split_and!; [done|done|congruence|congruence|auto].
Qed.

End Invariants.

(** X6. A [Write] leaks no file: every file that is open after it is the
    file the rolling file now holds, or was open before without being the
    file held. So the file held before a rotation is closed by it, and a
    rotation that fails opens nothing. *)
Theorem Write_leaks_no_file
    (p : list byte) (drf : files.DurationRollingFile) (w : World) :
  sync.locked (files.mu drf) = false ->
  exists r drf' w',
    files.Write p drf w = (Done (r, drf'), w')
    /\ forall g, isOpen w' g ->
         files.file drf' = Some g
         \/ (isOpen w g /\ files.file drf <> Some g).
Proof.
  intros Hfree.
  destruct (Write_returns p drf w Hfree) as (r & drf' & w1 & w' & _ & _ & HW).
  exists r, drf', w'. split; [done|]. by eapply Write_isOpen.
Qed.

Lemma Write_leaks_no_file_witness :
  let p := Sample.hello in
  let drf := Sample.holding (2 * time.Second) in
  let w := Sample.running Sample.faulty in
  sync.locked (files.mu drf) = false
  /\ exists r drf' w',
    files.Write p drf w = (Done (r, drf'), w')
    /\ forall g, isOpen w' g ->
         files.file drf' = Some g
         \/ (isOpen w g /\ files.file drf <> Some g).
Proof.
  intros p drf w.
  assert (sync.locked (files.mu drf) = false) as H1 by reflexivity.
  split; [exact H1|].
  exact (Write_leaks_no_file p drf w H1).
Defined.

(** X7. At most one file is open at any time: when every open file is the
    one the rolling file holds, then after any sequence of calls of
    [Write], [Close] and [SetNameGenerator], made at any times and
    whatever the operating system answers, every open file is again the
    one held, so no two distinct files are open. *)
Theorem at_most_one_open_file
    (ops : list Op) (drf : files.DurationRollingFile) (w : World) :
  sync.locked (files.mu drf) = false ->
  onlyHeldOpen drf w ->
  exists drf' w',
    run ops drf w = (Done drf', w')
    /\ onlyHeldOpen drf' w'
    /\ forall f g, isOpen w' f -> isOpen w' g -> f = g.
Proof.
  intros Hfree Honly.
  destruct (run_keeps ops drf w Hfree) as (drf' & w' & H & _ & _ & _ & Hkeep).
  exists drf', w'. split; [done|]. split; [auto|].
  intros f g Hf Hg. apply Hkeep in Hf; [|done]. apply Hkeep in Hg; [|done].
  congruence.
Qed.

Lemma at_most_one_open_file_witness :
  let ops := [DoWrite Sample.noon Sample.hello;
              DoSetNameGenerator Sample.noon Sample.bySecond;
              DoWrite (time.Add Sample.noon (2 * time.Second)) Sample.hello;
              DoClose (time.Add Sample.noon (3 * time.Second))] in
  let drf := Sample.fresh in
  let w := Sample.start Sample.faulty in
  (sync.locked (files.mu drf) = false /\ onlyHeldOpen drf w)
  /\ exists drf' w',
    run ops drf w = (Done drf', w')
    /\ onlyHeldOpen drf' w'
    /\ forall f g, isOpen w' f -> isOpen w' g -> f = g.
Proof.
  intros ops drf w.
  assert (sync.locked (files.mu drf) = false) as H1 by reflexivity.
  assert (onlyHeldOpen drf w) as H2.
  { intros f (st & Hst & _). unfold w in Hst. simpl in Hst.
    by rewrite lookup_empty in Hst. }
  split; [auto|].
  exact (at_most_one_open_file ops drf w H1 H2).
Defined.

(** X8. When every name generator installed is one that is not nil and
    whose [NextName] returns a name, as all those of the type
    [NameGenerator] are, every sequence of calls of [Write], [Close] and
    [SetNameGenerator] on a rolling file whose mutex is free returns with
    the mutex free again, and with the duration and the directory that
    the rolling file had. (A nil generator, which [SetNameGenerator]
    accepts, makes the next rotation panic; no value of [Op] stands for
    it.) *)
Theorem calls_return_and_keep_threshold
    (ops : list Op) (drf : files.DurationRollingFile) (w : World) :
  sync.locked (files.mu drf) = false ->
  exists drf' w',
    run ops drf w = (Done drf', w')
    /\ sync.locked (files.mu drf') = false
    /\ files.duration drf' = files.duration drf
    /\ files.directory drf' = files.directory drf.
Proof.
  intros Hfree.
  destruct (run_keeps ops drf w Hfree) as (drf' & w' & H & Hf & Hd & Hdir & _).
  by exists drf', w'.
Qed.

Lemma calls_return_and_keep_threshold_witness :
  let ops := [DoClose Sample.noon;
              DoWrite Sample.noon Sample.hello;
              DoSetNameGenerator Sample.noon Sample.bySecond;
              DoWrite (time.Add Sample.noon (2 * time.Second)) Sample.hello] in
  let drf := Sample.fresh in
  let w := Sample.start (Sample.deniesAt 0) in
  sync.locked (files.mu drf) = false
  /\ exists drf' w',
    run ops drf w = (Done drf', w')
    /\ sync.locked (files.mu drf') = false
    /\ files.duration drf' = files.duration drf
    /\ files.directory drf' = files.directory drf.
Proof.
  intros ops drf w.
  assert (sync.locked (files.mu drf) = false) as H1 by reflexivity.
  split; [exact H1|].
  exact (calls_return_and_keep_threshold ops drf w H1).
Defined.

(** ** The bytes of the writes *)

Section Bytes.

Import files.

(** What [os.File.Write] returns keeps the contract of [io.Writer]. *)
Lemma os_Write_contract f b w n err w' :
  os.Write f b w = (Done (n, err), w') ->
  0 <= n <= Z.of_nat (length b) /\ (n < Z.of_nat (length b) -> err <> None).
Proof.
  unfold os.Write. destruct f as [fd|]; [|intros [= <- <- <-]; split; [lia|done]].
  destruct (files w !! fd) as [st|]; [|intros [= <- <- <-]; split; [lia|done]].
  destruct (closed st); [intros [= <- <- <-]; split; [lia|done]|].
  destruct (writeFails _ _ _) as [[k e]|]; intros [= <- <- <-].
  - split; [lia|done].
  - split; lia.
Qed.

(** A write that the operating system does not fail appends the bytes to
    the open file it is made on. *)
Lemma os_Write_appends fd st b w :
  files w !! fd = Some st -> closed st = false ->
  writeFails (kernel w) (length (calls w)) b = None ->
  exists w',
    os.Write (Some fd) b w = (Done (Z.of_nat (length b), None), w')
    /\ files w' !! fd
       = Some {| fileName := fileName st; closed := false;
                 written := written st ++ b |}
    /\ (forall g, g <> fd -> files w' !! g = files w !! g)
    /\ nextFile w' = nextFile w
    /\ kernel w' = kernel w.
Proof.
  intros Hfd Hcl Hok. unfold os.Write. rewrite Hfd, Hcl, Hok.
  eexists. split; [done|]. simpl. rewrite take_ge by done.
  split; [by rewrite lookup_insert_eq|].
  split; [|done]. intros g Hg. by rewrite lookup_insert_ne.
Qed.

(** One write that does not roll, when the operating system does not
    fail writes. *)
Lemma Write_keeps_appends p drf w f st :
  sync.locked (mu drf) = false ->
  ~ qualifies drf (clock w) ->
  file drf = Some f -> files w !! f = Some st -> closed st = false ->
  neverFailsWrite (kernel w) ->
  exists w',
    Write p drf w = (Done ((Z.of_nat (length p), None), drf), w')
    /\ files w' !! f
       = Some {| fileName := fileName st; closed := false;
                 written := written st ++ p |}
    /\ (forall g, g <> f -> files w' !! g = files w !! g)
    /\ nextFile w' = nextFile w
    /\ kernel w' = kernel w.
Proof.
  intros Hfree Hq Hf Hst Hcl Hok.
  destruct (os_Write_appends f st p w Hst Hcl (Hok _ _))
    as (w' & Hw & Hfile & Hother & Hn & Hk).
  exists w'. split; [|done]. apply Write_keeps; [done..|]. by rewrite Hf.
Qed.

(** Writes in a row of which none rolls: the bytes are appended to the
    file held, in the order of the writes. *)
Lemma writeEach_appends ws : forall drf w f st,
  sync.locked (mu drf) = false ->
  file drf = Some f -> files w !! f = Some st -> closed st = false ->
  neverFailsWrite (kernel w) ->
  Forall (fun tp => ~ qualifies drf tp.1) ws ->
  exists w',
    writeEach ws drf w = (Done drf, w')
    /\ files w' !! f
       = Some {| fileName := fileName st; closed := false;
                 written := written st ++ List.concat (map snd ws) |}
    /\ (forall g, g <> f -> files w' !! g = files w !! g)
    /\ nextFile w' = nextFile w
    /\ kernel w' = kernel w.
Proof.
  induction ws as [|[t p] ws IH]; intros drf w f st Hfree Hf Hst Hcl Hok Hall.
  - exists w. split; [done|]. simpl. rewrite app_nil_r.
    split; [|done]. rewrite Hst. destruct st; simpl in *. by subst.
  - apply Forall_cons in Hall as [Hq Hall]. simpl in Hq.
    destruct (Write_keeps_appends p drf (atTime t w) f st Hfree Hq Hf Hst Hcl Hok)
      as (w1 & HW & Hfile1 & Hother1 & Hn1 & Hk1).
    destruct (IH drf w1 f _ Hfree Hf Hfile1 eq_refl) as
      (w' & Hrest & Hfile & Hother & Hn & Hk); [by rewrite Hk1|done|].
    exists w'. split.
    { cbn [writeEach]. unfold resumeAt. io_unfold. by rewrite HW. }
    split; [rewrite Hfile; simpl; by rewrite <- app_assoc|].
    split; [intros g Hg; by rewrite Hother, Hother1|].
    split; [by rewrite Hn, Hn1|by rewrite Hk, Hk1].
Qed.

(** One write that rolls, when the operating system fails neither the
    creation nor the write. *)
Lemma Write_rolls_appends p drf w f st :
  sync.locked (mu drf) = false ->
  qualifies drf (clock w) ->
  file drf = Some f -> files w !! f = Some st -> closed st = false ->
  (f < nextFile w)%nat ->
  neverFailsCreate (kernel w) -> neverFailsWrite (kernel w) ->
  exists w',
    Write p drf w
    = (Done ((Z.of_nat (length p), None),
             set_file_lastTime drf (Some (nextFile w)) (clock w)), w')
    /\ files w' !! nextFile w
       = Some {| fileName := (nextName drf (clock w) w).1; closed := false;
                 written := p |}
    /\ files w' !! f
       = Some {| fileName := fileName st; closed := true;
                 written := written st |}
    /\ kernel w' = kernel w.
Proof.
  intros Hfree Hq Hf Hst Hcl Hlt Hcreate Hok.
  destruct (nextName drf (clock w) w) as [name random'] eqn:Hname.
  unfold nextName in Hname. simpl.
  assert (f <> nextFile w) as Hne by lia.
  assert (files (created name random' w) !! f = Some st) as Hst'.
  { unfold created. simpl. by rewrite lookup_insert_ne. }
  pose proof (os_Close_open f st (created name random' w) Hst' Hcl) as Hclose.
  set (wc := afterCall _ _ _ _) in Hclose.
  assert (files wc !! nextFile w
          = Some {| fileName := name; closed := false; written := [] |}) as Hnew.
  { unfold wc, created. simpl. rewrite lookup_insert_ne by done.
    by rewrite lookup_insert_eq. }
  destruct (os_Write_appends (nextFile w) _ p wc Hnew eq_refl)
    as (w' & Hw & Hfile & Hother & _ & Hk); [apply Hok|].
  exists w'. split.
  { eapply Write_rolls_success; eauto. by rewrite Hf. }
  split; [done|]. split; [|done].
  rewrite Hother by done. unfold wc. simpl. by rewrite lookup_insert_eq.
Qed.

End Bytes.

(** X9. The count and the error that [Write] returns keep the contract of
    an [io.Writer], on every path (no file held, a closed file, a
    rotation or none): the count lies between 0 and the length of the
    bytes given, and a count below the length comes with an error. *)
Theorem Write_count_within_bounds
    (p : list byte) (drf : files.DurationRollingFile) (w : World) :
  sync.locked (files.mu drf) = false ->
  exists n err drf' w',
    files.Write p drf w = (Done ((n, err), drf'), w')
    /\ 0 <= n <= Z.of_nat (length p)
    /\ (n < Z.of_nat (length p) -> err <> None).
Proof.
  intros Hfree.
  destruct (Write_returns p drf w Hfree)
    as ([n err] & drf' & w1 & w' & _ & Hw & HW).
  exists n, err, drf', w'. split; [done|]. by eapply os_Write_contract.
Qed.

Lemma Write_count_within_bounds_witness :
  let p := Sample.hello in
  let drf := Sample.holding (2 * time.Second) in
  let w := Sample.running Sample.faulty in
  sync.locked (files.mu drf) = false
  /\ exists n err drf' w',
    files.Write p drf w = (Done ((n, err), drf'), w')
    /\ 0 <= n <= Z.of_nat (length p)
    /\ (n < Z.of_nat (length p) -> err <> None).
Proof.
  intros p drf w.
  assert (sync.locked (files.mu drf) = false) as H1 by reflexivity.
  split; [exact H1|].
  exact (Write_count_within_bounds p drf w H1).
Defined.

(** X10. No byte is lost, doubled or moved by a rotation. Writes are made
    one after the other on a rolling file that holds an open file: those
    in [before] come before the duration has passed, [(t1, p1)] comes
    when it has passed, and those in [after] come less than the duration
    later. When the operating system fails no creation and no write, the
    file held at the start ends closed, with the bytes of [before]
    appended to it in order, and the new file is open and holds the bytes
    of [p1] and of [after], in order, and nothing else. *)
Theorem bytes_survive_rotation
    (before : list (time.Time * list byte)) (t1 : time.Time) (p1 : list byte)
    (after : list (time.Time * list byte))
    (drf : files.DurationRollingFile) (f : File) (st : FileState) (w : World) :
  sync.locked (files.mu drf) = false ->
  files.file drf = Some f ->
  files w !! f = Some st ->
  closed st = false ->
  (f < nextFile w)%nat ->
  neverFailsCreate (kernel w) ->
  neverFailsWrite (kernel w) ->
  Forall (fun tp => time.Sub tp.1 (files.lastTime drf) < files.duration drf)
    before ->
  files.duration drf <= time.Sub t1 (files.lastTime drf) ->
  Forall (fun tp => time.Sub tp.1 t1 < files.duration drf) after ->
  exists drf' w',
    writeEach (before ++ (t1, p1) :: after) drf w = (Done drf', w')
    /\ files.file drf' = Some (nextFile w)
    /\ contents w' f = Some (written st ++ List.concat (map snd before))
    /\ contents w' (nextFile w) = Some (p1 ++ List.concat (map snd after))
    /\ ~ isOpen w' f
    /\ isOpen w' (nextFile w).
Proof.
  intros Hfree Hf Hst Hcl Hlt Hcreate Hok Hbefore Hroll Hafter.
  destruct (writeEach_appends before drf w f st Hfree Hf Hst Hcl Hok)
    as (w1 & H1 & Hfile1 & Hother1 & Hn1 & Hk1).
  { eapply Forall_impl; [exact Hbefore|]. intros [t p] Hsub [Hnil|Hge]; simpl in *.
    - congruence.
    - lia. }
  set (st1 := {| fileName := fileName st; closed := false;
                 written := written st ++ List.concat (map snd before) |}) in *.
  destruct (Write_rolls_appends p1 drf (atTime t1 w1) f st1 Hfree)
    as (w2 & H2 & Hnew2 & Hold2 & Hk2);
    [by right|done|exact Hfile1|done|simpl; lia
    |simpl; by rewrite Hk1|simpl; by rewrite Hk1|].
  simpl in H2, Hnew2, Hold2, Hk2. rewrite Hn1 in *.
  set (drf2 := files.set_file_lastTime drf (Some (nextFile w)) t1) in *.
  set (st2 := {| fileName := (nextName drf t1 (atTime t1 w1)).1; closed := false;
                 written := p1 |}) in *.
  destruct (writeEach_appends after drf2 w2 (nextFile w) st2 Hfree eq_refl Hnew2 eq_refl)
    as (w3 & H3 & Hfile3 & Hother3 & _).
  { by rewrite Hk2, Hk1. }
  { eapply Forall_impl; [exact Hafter|]. intros [t p] Hsub [Hnil|Hge]; simpl in *.
    - discriminate.
    - lia. }
  assert (files w3 !! f
          = Some {| fileName := fileName st; closed := true;
                    written := written st ++ List.concat (map snd before) |})
    as Hold3.
  { rewrite Hother3 by lia. exact Hold2. }
  exists drf2, w3. split.
  { rewrite (writeEach_app before _ drf w drf w1 H1).
    cbn [writeEach]. unfold resumeAt. io_unfold. by rewrite H2. }
  split; [done|].
  unfold contents, isOpen. rewrite Hold3, Hfile3. simpl.
  split_and!; [done|done| |eauto].
  intros (st' & [= <-] & Hcl'). done.
Qed.

Lemma bytes_survive_rotation_witness :
  let before := [(Sample.noon, [x61]); (Sample.noon, [x62])] in
  let t1 := time.Add Sample.noon (600 * time.Millisecond) in
  let p1 := [x63] in
  let after := [(time.Add Sample.noon time.Second, [x64])] in
  let drf := Sample.holding (500 * time.Millisecond) in
  let st := {| fileName := "logs/old.log"; closed := false;
               written := [x6f; x6b] |} in
  let w := Sample.running Sample.calm in
  (sync.locked (files.mu drf) = false
   /\ files.file drf = Some 0%nat
   /\ files w !! 0%nat = Some st
   /\ closed st = false
   /\ (0 < nextFile w)%nat
   /\ neverFailsCreate (kernel w)
   /\ neverFailsWrite (kernel w)
   /\ Forall (fun tp => time.Sub tp.1 (files.lastTime drf) < files.duration drf)
        before
   /\ files.duration drf <= time.Sub t1 (files.lastTime drf)
   /\ Forall (fun tp => time.Sub tp.1 t1 < files.duration drf) after)
  /\ exists drf' w',
    writeEach (before ++ (t1, p1) :: after) drf w = (Done drf', w')
    /\ files.file drf' = Some (nextFile w)
    /\ contents w' 0%nat = Some (written st ++ List.concat (map snd before))
    /\ contents w' (nextFile w) = Some (p1 ++ List.concat (map snd after))
    /\ ~ isOpen w' 0%nat
    /\ isOpen w' (nextFile w).
Proof.
  intros before t1 p1 after drf st w.
  assert (sync.locked (files.mu drf) = false) as H1 by reflexivity.
  assert (files.file drf = Some 0%nat) as H2 by reflexivity.
  assert (files w !! 0%nat = Some st) as H3 by (vm_compute; reflexivity).
  assert (closed st = false) as H4 by reflexivity.
  assert (0 < nextFile w)%nat as H5 by (simpl; lia).
  assert (neverFailsCreate (kernel w)) as H6 by (intros t name; reflexivity).
  assert (neverFailsWrite (kernel w)) as H7 by (intros t b; reflexivity).
  assert (Forall (fun tp => time.Sub tp.1 (files.lastTime drf) < files.duration drf)
            before) as H8 by (repeat constructor).
  assert (files.duration drf <= time.Sub t1 (files.lastTime drf)) as H9
    by (vm_compute; discriminate).
  assert (Forall (fun tp => time.Sub tp.1 t1 < files.duration drf) after) as H10
    by (repeat constructor).
  split; [by split_and!|].
  exact (bytes_survive_rotation before t1 p1 after drf 0%nat st w
           H1 H2 H3 H4 H5 H6 H7 H8 H9 H10).
Defined.

(** ** The least time between two rotations *)

(** X11. [minDuration] does what its comment says, for files that are
    created: on a rolling file whose duration is at least [minDuration],
    as the constructor demands, after a [Write] has rolled to a new file
    no [Write] made less than one second later asks the operating system
    for a file; it goes to the file held. *)
Theorem no_rotation_within_a_second
    (p : list byte) (drf : files.DurationRollingFile) (w : World) :
  sync.locked (files.mu drf) = false ->
  files.minDuration <= files.duration drf ->
  qualifies drf (clock w) ->
  creationError drf (clock w) w = None ->
  exists r drf' w',
    files.Write p drf w = (Done (r, drf'), w')
    /\ files.file drf' = Some (nextFile w)
    /\ forall p2 w2,
         time.Sub (clock w2) (clock w) < 1 * time.Second ->
         exists r2 w2',
           files.Write p2 drf' w2 = (Done (r2, drf'), w2')
           /\ rotationInvoked w2 w2' = false
           /\ creations (newCalls w2 w2') = 0%nat.
Proof.
  intros Hfree Hmin Hq Hok. unfold creationError in Hok.
  destruct (nextName drf (clock w) w) as [name random'] eqn:Hname.
  unfold nextName in Hname. simpl in Hok.
  destruct (os_Close_returns (files.file drf) (created name random' w))
    as (cerr & wc & Hclose).
  destruct (os_Write_returns (Some (nextFile w)) p wc) as (r & w' & Hw).
  pose proof (Write_rolls_success p drf w name random' cerr wc r w'
                Hfree Hq Hname Hok Hclose Hw) as HW.
  set (drf' := files.set_file_lastTime drf (Some (nextFile w)) (clock w)) in *.
  exists r, drf', w'. split; [done|]. split; [done|].
  intros p2 w2 Hsoon.
  assert (~ qualifies drf' (clock w2)) as Hnq.
  { intros [Hnil|Hge]; [discriminate|]. simpl in Hge.
    unfold files.minDuration in Hmin. lia. }
  destruct (os_Write_returns (files.file drf') p2 w2) as (r2 & w2' & Hw2).
  pose proof (Write_keeps p2 drf' w2 r2 w2' Hfree Hnq Hw2) as HW2.
  exists r2, w2'. split; [done|].
  destruct (Write_newCalls p2 drf' w2 r2 drf' w2' Hfree HW2)
    as (l & Hl & _ & Hno & _).
  unfold rotationInvoked. rewrite (newCalls_app _ _ _ Hl).
  specialize (Hno Hnq). split; [|done].
  destruct (existsb isCreate l) eqn:E; [|done].
  apply existsb_creations in E. lia.
Qed.

Lemma no_rotation_within_a_second_witness :
  let p := Sample.hello in
  let drf := Sample.holding (2 * time.Second) in
  let w := Sample.running Sample.faulty in
  (sync.locked (files.mu drf) = false
   /\ files.minDuration <= files.duration drf
   /\ qualifies drf (clock w)
   /\ creationError drf (clock w) w = None)
  /\ exists r drf' w',
    files.Write p drf w = (Done (r, drf'), w')
    /\ files.file drf' = Some (nextFile w)
    /\ forall p2 w2,
         time.Sub (clock w2) (clock w) < 1 * time.Second ->
         exists r2 w2',
           files.Write p2 drf' w2 = (Done (r2, drf'), w2')
           /\ rotationInvoked w2 w2' = false
           /\ creations (newCalls w2 w2') = 0%nat.
Proof.
  intros p drf w.
  assert (sync.locked (files.mu drf) = false) as H1 by reflexivity.
  assert (files.minDuration <= files.duration drf) as H2
    by (vm_compute; discriminate).
  assert (qualifies drf (clock w)) as H3 by (right; vm_compute; discriminate).
  assert (creationError drf (clock w) w = None) as H4 by reflexivity.
  split; [auto|].
  exact (no_rotation_within_a_second p drf w H1 H2 H3 H4).
Defined.

(** ** The path of the default file name *)

Section Paths.

Local Open Scope string_scope.

Lemma append_assoc (a b c : string) : (a ++ b) ++ c = a ++ (b ++ c).
Proof.
  induction a as [|x a IH]; [reflexivity|].
  change (String x ((a ++ b) ++ c) = String x (a ++ (b ++ c))). by rewrite IH.
Qed.

Lemma append_cons (x : ascii) (a b : string) :
  String x a ++ b = String x (a ++ b).
Proof. reflexivity. Qed.

Lemma length_append (a b : string) :
  String.length (a ++ b) = (String.length a + String.length b)%nat.
Proof.
  induction a as [|x a IH]; [reflexivity|].
  rewrite append_cons. simpl. by rewrite IH.
Qed.

Lemma append_cancel_l (a b c : string) : a ++ b = a ++ c -> b = c.
Proof.
  induction a as [|x a IH]; [done|].
  rewrite !append_cons. intros [= H]. by apply IH.
Qed.

Lemma append_cancel_r (s : string) : forall a b : string,
  a ++ s = b ++ s -> a = b.
Proof.
  induction a as [|x a IH]; intros [|y b] H.
  - done.
  - apply (f_equal String.length) in H.
    rewrite !length_append in H. simpl in H. lia.
  - apply (f_equal String.length) in H.
    rewrite !length_append in H. simpl in H. lia.
  - rewrite !append_cons in H. injection H as -> H. f_equal. by apply IH.
Qed.

Lemma noSlash_append (a b : string) :
  noSlash (a ++ b) = noSlash a && noSlash b.
Proof.
  induction a as [|x a IH]; [reflexivity|].
  rewrite append_cons. simpl. rewrite IH. by rewrite andb_assoc.
Qed.

Lemma fields_nonempty (sep : ascii) (s : string) : strings.fields sep s <> [].
Proof.
  destruct s as [|c s]; simpl; [done|].
  destruct (Ascii.eqb c sep); [done|]. by destruct (strings.fields sep s).
Qed.

Lemma fields_noSlash (s : string) :
  noSlash s = true -> strings.fields "/" s = [s].
Proof.
  induction s as [|c s IH]; simpl; [done|].
  intros H. apply andb_prop in H as [Hc Hs].
  apply negb_true_iff in Hc. rewrite Hc, (IH Hs). done.
Qed.

(** A slash ends an element and starts the next one. *)
Lemma fields_app_slash (a b : string) :
  strings.fields "/" (a ++ String "/" b)
  = (strings.fields "/" a ++ strings.fields "/" b)%list.
Proof.
  induction a as [|c a IH]; [reflexivity|].
  rewrite append_cons. simpl. rewrite IH.
  destruct (Ascii.eqb c "/"); [done|].
  pose proof (fields_nonempty "/" a).
  by destruct (strings.fields "/" a).
Qed.

Lemma Join_snoc (l : list string) (x sep : string) :
  l <> [] ->
  strings.Join (l ++ [x])%list sep = strings.Join l sep ++ (sep ++ x).
Proof.
  induction l as [|e l IH]; [done|]. intros _.
  destruct l as [|e' l]; [reflexivity|].
  change (e ++ (sep ++ strings.Join ((e' :: l) ++ [x])%list sep)
          = (e ++ (sep ++ strings.Join (e' :: l) sep)) ++ (sep ++ x)).
  rewrite IH by done. by rewrite !append_assoc.
Qed.

(** The last element of a path that ends with a slash-free name. *)
Lemma lastElement_name (a name : string) :
  noSlash name = true -> lastElement (a ++ String "/" name) = name.
Proof.
  intros H. unfold lastElement.
  rewrite fields_app_slash, (fields_noSlash _ H). apply List.last_last.
Qed.

Lemma lastElement_noSlash (name : string) :
  noSlash name = true -> lastElement name = name.
Proof. intros H. unfold lastElement. by rewrite (fields_noSlash _ H). Qed.

Lemma cleanStep_properName isRooted out name :
  properName name -> path.cleanStep isRooted out name = name :: out.
Proof.
  intros (_ & H0 & H1 & H2). unfold path.cleanStep.
  apply String.eqb_neq in H0, H1, H2. by rewrite H0, H1, H2.
Qed.

Lemma rooted_cons (c : ascii) (s : string) :
  path.rooted (String c s) = Ascii.eqb c "/".
Proof.
  unfold path.rooted.
  change (String.prefix "/" (String c s))
    with (if ascii_dec "/" c then String.prefix EmptyString s else false).
  destruct (ascii_dec "/" c) as [<-|Hne].
  - by destruct s.
  - symmetry. apply Ascii.eqb_neq. congruence.
Qed.

Lemma rooted_append (d s : string) :
  d <> EmptyString -> path.rooted (d ++ s) = path.rooted d.
Proof.
  destruct d as [|c d]; [done|]. intros _.
  by rewrite append_cons, !rooted_cons.
Qed.

Lemma rooted_noSlash (name : string) :
  noSlash name = true -> path.rooted name = false.
Proof.
  destruct name as [|c name]; [done|]. simpl. intros H.
  apply andb_prop in H as [Hc _]. apply negb_true_iff in Hc.
  by rewrite rooted_cons.
Qed.

(** [Clean] keeps a proper name at the end of a path as its last
    element. *)
Lemma Clean_slash_name (d name : string) :
  d <> EmptyString -> properName name ->
  path.Clean (d ++ String "/" name)
  = (if path.rooted d then "/" else EmptyString)
    ++ strings.Join
         (rev (fold_left (path.cleanStep (path.rooted d))
                 (strings.fields "/" d) []) ++ [name])%list "/".
Proof.
  intros Hd Hname. unfold path.Clean.
  destruct (String.eqb_spec (d ++ String "/" name) EmptyString) as [E|_].
  { destruct d; [done|discriminate E]. }
  rewrite (rooted_append d _ Hd), fields_app_slash.
  rewrite (fields_noSlash name) by apply Hname.
  rewrite fold_left_app. simpl. rewrite (cleanStep_properName _ _ _ Hname).
  simpl.
  match goal with |- (if String.eqb ?out EmptyString then _ else _) = _ =>
    destruct (String.eqb_spec out EmptyString) as [E|_]; [|done] end.
  exfalso. apply (f_equal String.length) in E. rewrite length_append in E.
  destruct Hname as (_ & H0 & _).
  destruct (rev _) as [|e l].
  - simpl in E. destruct name; [done|]. simpl in E. lia.
  - rewrite Join_snoc in E by done. rewrite !length_append in E.
    destruct name; [done|]. simpl in E. lia.
Qed.

Lemma Clean_properName (name : string) :
  properName name -> path.Clean name = name.
Proof.
  intros Hname. pose proof Hname as (Hns & H0 & _). unfold path.Clean.
  destruct (String.eqb_spec name EmptyString) as [|_]; [done|].
  rewrite (fields_noSlash _ Hns), (rooted_noSlash _ Hns).
  cbn [fold_left]. rewrite (cleanStep_properName _ _ _ Hname).
  change (EmptyString ++ strings.Join (rev [name]) "/") with name.
  by destruct (String.eqb_spec name EmptyString).
Qed.

Lemma Join_empty_directory (name : string) :
  properName name -> path.Join [EmptyString; name] = name.
Proof.
  intros Hname. pose proof Hname as (_ & H0 & _).
  change (path.Join [EmptyString; name])
    with (if String.eqb name EmptyString then EmptyString
          else path.Clean name).
  destruct (String.eqb_spec name EmptyString) as [|_]; [done|].
  by apply Clean_properName.
Qed.

(** The path that [Join] makes of a directory and a proper name ends with
    the name, as a whole element. *)
Lemma Join_lastElement (directory name : string) :
  properName name -> lastElement (path.Join [directory; name]) = name.
Proof.
  intros Hname. pose proof Hname as (Hns & H0 & H1 & H2).
  destruct (String.eqb_spec directory EmptyString) as [->|Hd].
  - rewrite (Join_empty_directory _ Hname). by apply lastElement_noSlash.
  - unfold path.Join.
    destruct (String.eqb_spec directory EmptyString) as [|_]; [done|].
    change (strings.Join [directory; name] "/")
      with (directory ++ String "/" name).
    rewrite (Clean_slash_name _ _ Hd Hname).
    destruct (rev _) as [|e l].
    + simpl. change (strings.Join [name] "/") with name.
      destruct (path.rooted directory).
      * change ("/" ++ name) with (EmptyString ++ String "/" name).
        by apply lastElement_name.
      * by apply lastElement_noSlash.
    + rewrite Join_snoc by done. rewrite <- append_assoc.
      change ("/" ++ name) with (String "/" name).
      by apply lastElement_name.
Qed.

(** A directory that is one proper name is kept as it is. *)
Lemma Join_plain (directory name : string) :
  properName directory -> properName name ->
  path.Join [directory; name] = directory ++ String "/" name.
Proof.
  intros Hdir Hname. pose proof Hdir as (Hns & H0 & _).
  unfold path.Join. destruct (String.eqb_spec directory EmptyString) as [|_]; [done|].
  change (strings.Join [directory; name] "/")
    with (directory ++ String "/" name).
  rewrite (Clean_slash_name _ _ H0 Hname).
  rewrite (fields_noSlash _ Hns). simpl.
  rewrite (cleanStep_properName _ _ _ Hdir). simpl.
  by rewrite (rooted_noSlash _ Hns).
Qed.

End Paths.

Section Names.

Local Open Scope string_scope.

Lemma noSlash_uint (d : Decimal.uint) :
  noSlash (NilEmpty.string_of_uint d) = true.
Proof. induction d; simpl; done. Qed.

Lemma noSlash_NilZero_uint (d : Decimal.uint) :
  noSlash (NilZero.string_of_uint d) = true.
Proof. destruct d; try apply (noSlash_uint (_ d)); done. Qed.

Lemma noSlash_Repeat_zero (k : nat) : noSlash (strings.Repeat "0" k) = true.
Proof.
  induction k as [|k IH]; [done|].
  cbn [strings.Repeat]. by rewrite noSlash_append, IH.
Qed.

Lemma noSlash_appendInt (x : Z) (width : nat) :
  noSlash (time.appendInt x width) = true.
Proof.
  unfold time.appendInt.
  rewrite !noSlash_append, noSlash_Repeat_zero, noSlash_NilZero_uint.
  by destruct (x <? 0)%Z.
Qed.

Lemma noSlash_Itoa (n : Z) : noSlash (strconv.Itoa n) = true.
Proof.
  unfold strconv.Itoa, NilZero.string_of_int.
  destruct (Z.to_int n) as [d|d]; simpl; apply noSlash_NilZero_uint.
Qed.

Lemma noSlash_stamp (t : time.Time) : noSlash (stamp t) = true.
Proof.
  unfold stamp.
  destruct (time.Date t) as [[year month] day].
  destruct (time.Clock t) as [[hour min] sec].
  by rewrite !noSlash_append, !noSlash_appendInt.
Qed.

(** The name that [nextFilename] makes is a proper path element. *)
Lemma properName_fileNameOf (now : time.Time) (n : Z) :
  properName (fileNameOf now n).
Proof.
  assert (5 <= String.length (fileNameOf now n))%nat as Hlen.
  { unfold fileNameOf. rewrite !length_append. simpl. lia. }
  split.
  - unfold fileNameOf. by rewrite !noSlash_append, noSlash_stamp, noSlash_Itoa.
  - split_and!; intros E; rewrite E in Hlen; simpl in Hlen; lia.
Qed.

(** [Itoa] gives different numbers different strings. *)
Lemma Itoa_inj (n m : Z) : strconv.Itoa n = strconv.Itoa m -> n = m.
Proof.
  unfold strconv.Itoa. intros H. apply DecimalZ.to_int_inj.
  assert (forall z, NilZero.int_of_string (NilZero.string_of_int (Z.to_int z))
                    = Some (Z.to_int z)) as Hback.
  { intros z. apply NilZero.isi; destruct z; simpl; try discriminate;
      intros [= E]; by apply DecimalPos.Unsigned.to_uint_nonnil in E. }
  apply (f_equal NilZero.int_of_string) in H. rewrite !Hback in H.
  by injection H.
Qed.

Lemma nextFilename_path (directory : string) (now : time.Time)
    (random : rand.Rand) :
  (logit.nextFilename directory now random).1
  = path.Join [directory; fileNameOf now (rand.Intn 1000 random).1].
Proof.
  unfold logit.nextFilename, fileNameOf.
  destruct (rand.Intn 1000 random) as [n random'].
  by rewrite Format_stamp.
Qed.

Lemma Itoa_shortNumber (n : Z) :
  0 <= n < 1000 -> shortNumber (strconv.Itoa n) = true.
Proof.
  apply (checked_below (fun n => shortNumber (strconv.Itoa n)) 1000).
  vm_compute; reflexivity.
Qed.

Lemma nextFilename_lastElement (directory : string) (now : time.Time)
    (random : rand.Rand) :
  lastElement (logit.nextFilename directory now random).1
  = fileNameOf now (rand.Intn 1000 random).1.
Proof.
  rewrite nextFilename_path. apply Join_lastElement, properName_fileNameOf.
Qed.

End Names.

(** X12. Whatever the directory given (empty, with dots, with slashes at
    its end), the last element of the path that [nextFilename] returns is
    the file name it made from the time and the number drawn: the
    directory cannot change or hide the name. *)
Theorem nextFilename_last_element
    (directory : string) (now : time.Time) (random : rand.Rand) :
  lastElement (logit.nextFilename directory now random).1
  = fileNameOf now (rand.Intn 1000 random).1.
Proof.
  apply nextFilename_lastElement.
Qed.

(** X13. With an empty directory, or the directory ["."], the path that
    [nextFilename] returns is the bare file name, with no slash: the file
    is made in the current directory. *)
Theorem nextFilename_without_directory
    (directory : string) (now : time.Time) (random : rand.Rand) :
  directory = EmptyString \/ directory = "."%string ->
  (logit.nextFilename directory now random).1
  = fileNameOf now (rand.Intn 1000 random).1
  /\ noSlash (logit.nextFilename directory now random).1 = true.
Proof.
  intros Hdir. rewrite nextFilename_path.
  pose proof (properName_fileNameOf now (rand.Intn 1000 random).1) as Hname.
  set (name := fileNameOf now (rand.Intn 1000 random).1) in *.
  assert (path.Join [directory; name] = name) as ->; [|split; [done|apply Hname]].
  destruct Hdir as [-> | ->].
  - by apply Join_empty_directory.
  - change (path.Join ["."%string; name])
      with (path.Clean (String.append "." (String "/" name))).
    rewrite (Clean_slash_name "." name); [|done|done]. reflexivity.
Qed.

Lemma nextFilename_without_directory_witness :
  (EmptyString = EmptyString \/ EmptyString = "."%string)
  /\ (logit.nextFilename EmptyString Sample.noon Sample.draws).1
     = fileNameOf Sample.noon (rand.Intn 1000 Sample.draws).1
  /\ noSlash (logit.nextFilename EmptyString Sample.noon Sample.draws).1 = true.
Proof.
  assert (EmptyString = EmptyString \/ EmptyString = "."%string) as H by (by left).
  split; [exact H|].
  exact (nextFilename_without_directory EmptyString Sample.noon Sample.draws H).
Defined.

(** X14. With a directory that is one plain name (no slash, and not
    ["."] or [".."]), the path that [nextFilename] returns is the
    directory, a slash, and the file name. *)
Theorem nextFilename_in_plain_directory
    (directory : string) (now : time.Time) (random : rand.Rand) :
  properName directory ->
  (logit.nextFilename directory now random).1
  = String.append directory
      (String "/" (fileNameOf now (rand.Intn 1000 random).1)).
Proof.
  intros Hdir. rewrite nextFilename_path.
  apply Join_plain; [done|apply properName_fileNameOf].
Qed.

Lemma nextFilename_in_plain_directory_witness :
  properName "logs"
  /\ (logit.nextFilename "logs" Sample.noon Sample.draws).1
     = String.append "logs"
         (String "/" (fileNameOf Sample.noon (rand.Intn 1000 Sample.draws).1)).
Proof.
  assert (properName "logs") as H by (by split_and!).
  split; [exact H|].
  exact (nextFilename_in_plain_directory "logs" Sample.noon Sample.draws H).
Defined.

(** X15. The random number is what tells apart two names made for the
    same directory at the same time: two invocations return the same path
    if and only if they draw the same number. A collision within one
    second needs the same draw out of 1000. *)
Theorem nextFilename_same_path_iff_same_draw
    (directory : string) (now : time.Time) (r1 r2 : rand.Rand) :
  (logit.nextFilename directory now r1).1
  = (logit.nextFilename directory now r2).1
  <-> (rand.Intn 1000 r1).1 = (rand.Intn 1000 r2).1.
Proof.
  rewrite !nextFilename_path. split; [|by intros ->].
  intros H. apply (f_equal lastElement) in H.
  rewrite !Join_lastElement in H by apply properName_fileNameOf.
  unfold fileNameOf in H.
  apply append_cancel_l in H. apply append_cancel_l in H.
  apply append_cancel_r in H. by apply Itoa_inj.
Qed.

(** X16. The file name is as the comment of [nextFilename] shows it: for
    a time in the years 0 to 9999, the last element of the path is made
    of four digits for the year, two for the month, two for the day, a
    dash, two digits each for the hour, the minute and the second, a
    dash, a number of one to three digits, and [".log"]. *)
Theorem nextFilename_name_shape
    (directory : string) (now : time.Time) (random : rand.Rand) :
  0 <= (time.Date now).1.1 <= 9999 ->
  exists YYYY MM DD hh mm ss N,
    lastElement (logit.nextFilename directory now random).1
    = String.append YYYY
        (String.append MM
           (String.append DD
              (String.append "-"
                 (String.append hh
                    (String.append mm
                       (String.append ss
                          (String.append "-" (String.append N ".log"))))))))
    /\ digits 4 YYYY = true /\ digits 2 MM = true /\ digits 2 DD = true
    /\ digits 2 hh = true /\ digits 2 mm = true /\ digits 2 ss = true
    /\ shortNumber N = true.
Proof.
  intros Hyear.
  destruct (stamp_shape now Hyear)
    as (YYYY & MM & DD & hh & mm & ss & Hstamp & HY & HM & HD & Hh & Hm & Hs).
  exists YYYY, MM, DD, hh, mm, ss, (strconv.Itoa (rand.Intn 1000 random).1).
  split.
  - rewrite nextFilename_lastElement. unfold fileNameOf.
    rewrite Hstamp. by rewrite !append_assoc.
  - split_and!; try done. apply Itoa_shortNumber.
    pose proof (Intn_range 1000 random eq_refl). lia.
Qed.

Lemma nextFilename_name_shape_witness :
  0 <= (time.Date Sample.noon).1.1 <= 9999
  /\ exists YYYY MM DD hh mm ss N,
    lastElement (logit.nextFilename "/var//log/../logs/" Sample.noon Sample.draws).1
    = String.append YYYY
        (String.append MM
           (String.append DD
              (String.append "-"
                 (String.append hh
                    (String.append mm
                       (String.append ss
                          (String.append "-" (String.append N ".log"))))))))
    /\ digits 4 YYYY = true /\ digits 2 MM = true /\ digits 2 DD = true
    /\ digits 2 hh = true /\ digits 2 mm = true /\ digits 2 ss = true
    /\ shortNumber N = true.
Proof.
  assert (0 <= (time.Date Sample.noon).1.1 <= 9999) as H
    by (vm_compute; split; discriminate).
  split; [exact H|].
  exact (nextFilename_name_shape "/var//log/../logs/" Sample.noon Sample.draws H).
Defined.

(** ** Every write retries a rotation that failed *)

Section Retries.

Import files.

(** One write that qualifies while the operating system refuses the
    creation. *)
Lemma Write_retries_step p drf w :
  sync.locked (mu drf) = false ->
  qualifies drf (clock w) ->
  alwaysFailsCreate (kernel w) ->
  exists r w' l,
    Write p drf w = (Done (r, drf), w')
    /\ calls w' = l ++ calls w
    /\ creations l = 1%nat
    /\ kernel w' = kernel w.
Proof.
  intros Hfree Hq Hfail.
  destruct (NextName (nameGenerator drf) (directory drf) (clock w) (random w))
    as [name random'] eqn:Hname.
  destruct (createFails (kernel w) (length (calls w)) name) as [e|] eqn:Hc;
    [|by destruct (Hfail _ _ Hc)].
  destruct (os_Write_returns (file drf) p (refused name random' e w))
    as (r & w' & Hw).
  pose proof (Write_rolls_failure p drf w name random' e r w'
                Hfree Hq Hname Hc Hw) as HW.
  destruct (Write_newCalls p drf w r drf w' Hfree HW) as (l & Hl & Hyes & _).
  exists r, w', l. split_and!; [done|done|by apply Hyes|].
  by destruct (os_Write_frame _ _ _ _ _ Hw) as (-> & _).
Qed.

(** A write while no file is held and the creation fails. *)
Lemma Write_nil_refused p drf w e :
  sync.locked (mu drf) = false ->
  file drf = None ->
  creationError drf (clock w) w = Some e ->
  exists w',
    Write p drf w = (Done ((0, Some ErrInvalid), drf), w')
    /\ writesOf (newCalls w w') = []
    /\ files w' = files w.
Proof.
  intros Hfree Hnil Hfail. unfold creationError in Hfail.
  destruct (nextName drf (clock w) w) as [name random'] eqn:Hname.
  unfold nextName in Hname. simpl in Hfail.
  exists (refused name random' e w). split_and!; [| |done].
  - eapply Write_rolls_failure; eauto; [by left|by rewrite Hnil].
  - by rewrite (newCalls_app _ _ [CreateCall name (inr e)]).
Qed.

End Retries.

(** X17. A rotation that fails is not put off to the next interval: from
    the time a write qualifies, as long as the operating system refuses
    to create the file, every [Write] asks for it again. After any number
    of writes the rolling file is as it was, and the operating system has
    been asked for a file once per write. *)
Theorem every_write_retries_failed_rotation
    (ws : list (time.Time * list byte)) (t0 : time.Time)
    (drf : files.DurationRollingFile) (w : World) :
  sync.locked (files.mu drf) = false ->
  qualifies drf t0 ->
  Forall (fun tp => time.instant t0 <= time.instant tp.1) ws ->
  alwaysFailsCreate (kernel w) ->
  exists w',
    writeEach ws drf w = (Done drf, w')
    /\ creations (newCalls w w') = length ws.
Proof.
  intros Hfree Hq Hlater Hfail.
  assert (exists w' l, writeEach ws drf w = (Done drf, w')
                       /\ calls w' = l ++ calls w
                       /\ creations l = length ws) as (w' & l & H & Hl & Hn).
  { revert w Hfail. induction ws as [|[t p] ws IH]; intros w Hfail.
    - exists w, []. by split_and!.
    - apply Forall_cons in Hlater as [Ht Hlater]. simpl in Ht.
      destruct (Write_retries_step p drf (atTime t w) Hfree)
        as (r & w1 & l1 & HW & Hl1 & Hc1 & Hk1);
        [by apply (qualifies_later drf t0)|done|].
      destruct (IH Hlater w1) as (w' & l & H & Hl & Hn); [by rewrite Hk1|].
      exists w', (l ++ l1). split.
      { cbn [writeEach]. unfold resumeAt. io_unfold. by rewrite HW. }
      split; [by rewrite Hl, Hl1, <- app_assoc|].
      rewrite creations_app, Hn, Hc1. simpl. lia. }
  exists w'. split; [done|]. by rewrite (newCalls_app _ _ _ Hl).
Qed.

Lemma every_write_retries_failed_rotation_witness :
  let ws := [(Sample.noon, Sample.hello);
             (time.Add Sample.noon time.Millisecond, Sample.hello);
             (time.Add Sample.noon (2 * time.Millisecond), Sample.hello)] in
  let drf := Sample.holding (2 * time.Second) in
  let w := Sample.running Sample.denying in
  (sync.locked (files.mu drf) = false
   /\ qualifies drf Sample.noon
   /\ Forall (fun tp => time.instant Sample.noon <= time.instant tp.1) ws
   /\ alwaysFailsCreate (kernel w))
  /\ exists w',
    writeEach ws drf w = (Done drf, w')
    /\ creations (newCalls w w') = length ws.
Proof.
  intros ws drf w.
  assert (sync.locked (files.mu drf) = false) as H1 by reflexivity.
  assert (qualifies drf Sample.noon) as H2 by (right; vm_compute; discriminate).
  assert (Forall (fun tp => time.instant Sample.noon <= time.instant tp.1) ws)
    as H3 by (repeat constructor; vm_compute; discriminate).
  assert (alwaysFailsCreate (kernel w)) as H4 by (intros t name; discriminate).
  split; [auto|].
  exact (every_write_retries_failed_rotation ws Sample.noon drf w H1 H2 H3 H4).
Defined.

(** ** Handlers *)

(** X18. A [DefaultHandler] never stops the chain of handlers and never
    reports a failure: [Handle] returns true whatever its writer returns.
    With a rolling file as its writer, [Handle] makes the [Write] of the
    encoded log and returns true with the rolling file after that write;
    when no file is held and none can be created, it still returns true,
    though the rolling file is as before and no byte has been written. *)
Theorem DefaultHandler_Handle_always_true
    (Log : Type) (log : Log)
    (dh : handler.DefaultHandler Log files.DurationRollingFile) (w : World) :
  sync.locked (files.mu (handler.writer dh)) = false ->
  (exists r drf' w',
     files.Write (handler.Encode (handler.encoder dh) log) (handler.writer dh) w
     = (Done (r, drf'), w')
     /\ handler.Handle log dh w
        = (Done (true, handler.NewDefaultHandler drf' (handler.encoder dh)), w'))
  /\ (files.file (handler.writer dh) = None ->
      creationError (handler.writer dh) (clock w) w <> None ->
      exists w',
        handler.Handle log dh w = (Done (true, dh), w')
        /\ writesOf (newCalls w w') = []
        /\ files w' = files w).
Proof.
  intros Hfree. split.
  - destruct (Write_returns (handler.Encode (handler.encoder dh) log)
                (handler.writer dh) w Hfree)
      as (r & drf' & w1 & w' & _ & _ & HW).
    exists r, drf', w'. split; [done|].
    unfold handler.Handle, io_Write, DurationRollingFile_Writer. io_unfold.
    by rewrite HW.
  - intros Hnil Hfail.
    destruct (creationError (handler.writer dh) (clock w) w) as [e|] eqn:He;
      [|done].
    destruct (Write_nil_refused (handler.Encode (handler.encoder dh) log)
                (handler.writer dh) w e Hfree Hnil He)
      as (w' & HW & Hcalls & Hfiles).
    exists w'. split; [|done].
    unfold handler.Handle, io_Write, DurationRollingFile_Writer. io_unfold.
    rewrite HW. by destruct dh.
Qed.

Lemma DefaultHandler_Handle_always_true_witness :
  let log := "started"%string in
  let dh := handler.NewDefaultHandler Sample.fresh Sample.lineEncoder in
  let w := Sample.start Sample.denying in
  sync.locked (files.mu (handler.writer dh)) = false
  /\ (exists r drf' w',
       files.Write (handler.Encode (handler.encoder dh) log) (handler.writer dh) w
       = (Done (r, drf'), w')
       /\ handler.Handle log dh w
          = (Done (true, handler.NewDefaultHandler drf' (handler.encoder dh)), w'))
  /\ (files.file (handler.writer dh) = None ->
      creationError (handler.writer dh) (clock w) w <> None ->
      exists w',
        handler.Handle log dh w = (Done (true, dh), w')
        /\ writesOf (newCalls w w') = []
        /\ files w' = files w).
Proof.
  intros log dh w.
  assert (sync.locked (files.mu (handler.writer dh)) = false) as H1
    by reflexivity.
  split; [exact H1|].
  exact (DefaultHandler_Handle_always_true string log dh w H1).
Defined.

(** X19. The handler of the example program writes the text
    ["myHandler: "] and then the encoded log to the standard output, and
    returns true whatever the two writes report, also when the standard
    output is nil or closed. When the standard output is open and the
    operating system fails no write, its bytes are those it had, then the
    text, then the encoded log. *)
Theorem myHandler_Handle_output
    (Log : Type) (Stdout : option File)
    (TextEncode : Log -> string -> list byte) (log : Log) (w : World) :
  (exists w', handler.myHandler_Handle Stdout TextEncode log w = (Done true, w'))
  /\ (forall f st,
        Stdout = Some f -> files w !! f = Some st -> closed st = false ->
        neverFailsWrite (kernel w) ->
        exists w',
          handler.myHandler_Handle Stdout TextEncode log w = (Done true, w')
          /\ contents w' f
             = Some (written st ++ list_byte_of_string "myHandler: "
                     ++ TextEncode log EmptyString)).
Proof.
  split.
  - destruct (os_Write_returns Stdout (list_byte_of_string "myHandler: ") w)
      as (r1 & w1 & H1).
    destruct (os_Write_returns Stdout (TextEncode log EmptyString) w1)
      as (r2 & w2 & H2).
    exists w2. unfold handler.myHandler_Handle. io_unfold. by rewrite H1, H2.
  - intros f st -> Hst Hcl Hok.
    destruct (os_Write_appends f st (list_byte_of_string "myHandler: ") w
                Hst Hcl (Hok _ _)) as (w1 & H1 & Hf1 & _ & _ & Hk1).
    destruct (os_Write_appends f _ (TextEncode log EmptyString) w1 Hf1 eq_refl)
      as (w2 & H2 & Hf2 & _); [rewrite Hk1; apply Hok|].
    exists w2. split.
    + unfold handler.myHandler_Handle. io_unfold. by rewrite H1, H2.
    + unfold contents. rewrite Hf2. simpl. by rewrite <- app_assoc.
Qed.

Lemma myHandler_Handle_output_witness :
  let st := {| fileName := "logs/old.log"; closed := false;
               written := [x6f; x6b] |} in
  let w := Sample.running Sample.calm in
  (Some 0%nat = Some 0%nat /\ files w !! 0%nat = Some st /\ closed st = false
   /\ neverFailsWrite (kernel w))
  /\ exists w',
    handler.myHandler_Handle (Some 0%nat) Sample.textEncode "started"%string w
    = (Done true, w')
    /\ contents w' 0%nat
       = Some (written st ++ list_byte_of_string "myHandler: "
               ++ Sample.textEncode "started"%string EmptyString).
Proof.
  intros st w.
  assert (files w !! 0%nat = Some st) as H2 by apply lookup_singleton_eq.
  assert (neverFailsWrite (kernel w)) as H4 by (intros t b; reflexivity).
  split; [by split_and!|].
  exact (proj2 (myHandler_Handle_output string (Some 0%nat) Sample.textEncode
                  "started"%string w) 0%nat st eq_refl H2 eq_refl H4).
Defined.

(** ** Examples *)

Module GoExamples.

Example Itoa_45 : strconv.Itoa 45 = "45"%string.
Proof. reflexivity. Qed.

Example Itoa_0 : strconv.Itoa 0 = "0"%string.
Proof. reflexivity. Qed.

Example Itoa_neg : strconv.Itoa (-7) = "-7"%string.
Proof. reflexivity. Qed.

(** 2020-03-04 14:52:46 UTC is 1583333566 seconds after the Unix epoch. *)
Example Format_doc :
  time.Format (time.Unix 1583333566 0 0) "20060102-150405"
  = "20200304-145246"%string.
Proof. vm_compute. reflexivity. Qed.

Example Format_offset :
  time.Format (time.Unix 1583333566 0 (8 * 3600)) "20060102-150405"
  = "20200304-225246"%string.
Proof. vm_compute. reflexivity. Qed.

Example Format_epoch :
  time.Format (time.Unix 0 0 0) "2006-01-02 15:04:05"
  = "1970-01-01 00:00:00"%string.
Proof. vm_compute. reflexivity. Qed.

Example Format_zero :
  time.Format time.zero "20060102-150405" = "00010101-000000"%string.
Proof. vm_compute. reflexivity. Qed.

Example Format_leap :
  time.Format (time.Unix 1582934400 0 0) "20060102" = "20200229"%string.
Proof. vm_compute. reflexivity. Qed.

Example Format_end_of_year :
  time.Format (time.Unix 1609459199 0 0) "20060102-150405"
  = "20201231-235959"%string.
Proof. vm_compute. reflexivity. Qed.

Example Clean_1 : path.Clean "a//b/./c/.." = "a/b"%string.
Proof. reflexivity. Qed.

Example Clean_2 : path.Clean "/../a/b/../././/c" = "/a/c"%string.
Proof. reflexivity. Qed.

Example Clean_3 : path.Clean "../../a" = "../../a"%string.
Proof. reflexivity. Qed.

Example Clean_4 : path.Clean "a/.." = "."%string.
Proof. reflexivity. Qed.

Example Clean_5 : path.Clean "/" = "/"%string.
Proof. reflexivity. Qed.

Example Join_1 : path.Join ["a"; "b/../c"]%string = "a/c"%string.
Proof. reflexivity. Qed.

Example Join_2 : path.Join [EmptyString; "x.log"%string] = "x.log"%string.
Proof. reflexivity. Qed.

Example Join_3 : path.Join ["logs/"; "x.log"]%string = "logs/x.log"%string.
Proof. reflexivity. Qed.

Example Join_4 : path.Join [EmptyString; EmptyString] = EmptyString.
Proof. reflexivity. Qed.

Example Sub_saturates :
  time.Sub (time.Unix 1583333566 0 0) time.zero = time.maxDuration.
Proof. reflexivity. Qed.

End GoExamples.

Module Scenarios.

(** The scenario of the specification: A written at t = 0 is alone in the
    first file, B written at t = 1.2 s is in a new file, and the first
    file has been closed. *)
Example two_files :
  let '(r, w) := Sample.twoWrites (1200 * time.Millisecond)
                   (Sample.start Sample.calm) in
  (r, Sample.snapshot w)
  = (Done ((1, None), (1, None), Some 1%nat),
     ([(1%nat, {| fileName := "D/20200304-145247-46.log"; closed := false;
                  written := [x42] |});
       (0%nat, {| fileName := "D/20200304-145246-45.log"; closed := true;
                  written := [x41] |})],
      [WriteCall 1%nat [x42] 1%nat None;
       CloseCall 0%nat None;
       CreateCall "D/20200304-145247-46.log" (inl 1%nat);
       WriteCall 0%nat [x41] 1%nat None;
       CreateCall "D/20200304-145246-45.log" (inl 0%nat)])).
Proof. vm_compute. reflexivity. Qed.

(** Half a second apart, both bytes are in the one file. *)
Example one_file :
  let '(r, w) := Sample.twoWrites (500 * time.Millisecond)
                   (Sample.start Sample.calm) in
  (r, Sample.snapshot w)
  = (Done ((1, None), (1, None), Some 0%nat),
     ([(0%nat, {| fileName := "D/20200304-145246-45.log"; closed := false;
                  written := [x41; x42] |})],
      [WriteCall 0%nat [x42] 1%nat None;
       WriteCall 0%nat [x41] 1%nat None;
       CreateCall "D/20200304-145246-45.log" (inl 0%nat)])).
Proof. vm_compute. reflexivity. Qed.

(** The close of the old file reports an error, and the rotation goes on;
    the errors of the writes are returned. *)
Example close_error_dropped :
  let '(r, w) := Sample.twoWrites (1200 * time.Millisecond)
                   (Sample.start Sample.faulty) in
  (r, calls w)
  = (Done ((1, Some (Errno 28)), (1, Some (Errno 28)), Some 1%nat),
     [WriteCall 1%nat [x42] 1%nat (Some (Errno 28));
      CloseCall 0%nat (Some (Errno 5));
      CreateCall "D/20200304-145247-46.log" (inl 1%nat);
      WriteCall 0%nat [x41] 1%nat (Some (Errno 28));
      CreateCall "D/20200304-145246-45.log" (inl 0%nat)]).
Proof. vm_compute. reflexivity. Qed.

(** The creation is refused once: the first write goes to the file held,
    the second one rolls. *)
Example refused_once :
  let '(r, w) := Sample.twoLateWrites (Sample.running (Sample.deniesAt 2)) in
  (r, Sample.snapshot w)
  = (Done ((1, None), (1, None), Some 1%nat),
     ([(1%nat, {| fileName := "logs/20200304-145246-46.log"; closed := false;
                  written := [x42] |});
       (0%nat, {| fileName := "logs/old.log"; closed := true;
                  written := [x6f; x6b; x41] |})],
      [WriteCall 1%nat [x42] 1%nat None;
       CloseCall 0%nat None;
       CreateCall "logs/20200304-145246-46.log" (inl 1%nat);
       WriteCall 0%nat [x41] 1%nat None;
       CreateCall "logs/20200304-145246-45.log" (inr (Errno 13));
       WriteCall 0%nat [x6f; x6b] 2%nat None;
       CreateCall "logs/old.log" (inl 0%nat)])).
Proof. vm_compute. reflexivity. Qed.

(** No file can be created: both writes report the invalid argument
    error, and no file is held. *)
Example never_created :
  let '(r, w) := Sample.twoWrites (1200 * time.Millisecond)
                   (Sample.start Sample.denying) in
  (r, Sample.snapshot w)
  = (Done ((0, Some ErrInvalid), (0, Some ErrInvalid), None),
     ([],
      [CreateCall "D/20200304-145247-46.log" (inr (Errno 13));
       CreateCall "D/20200304-145246-45.log" (inr (Errno 13))])).
Proof. vm_compute. reflexivity. Qed.

(** A duration below one second is refused. *)
Example too_short :
  files.NewDurationRollingFile "D" (999 * time.Millisecond)
    (Sample.start Sample.calm)
  = (Panic (errorString
              (String.append "Duration is smaller than 1s"
                 (String (ascii_of_nat 10) EmptyString))),
     Sample.start Sample.calm).
Proof. reflexivity. Qed.

(** A directory with a doubled slash, a step back and a slash at its end
    is cleaned; the name is kept. *)
Example default_name_in_untidy_directory :
  (logit.nextFilename "/var//log/../logs/" Sample.noon Sample.draws).1
  = "/var/logs/20200304-145246-45.log"%string.
Proof. vm_compute. reflexivity. Qed.

(** The handler of the example program on an open standard output. *)
Example myHandler_writes :
  let '(r, w) := handler.myHandler_Handle (Some 0%nat) Sample.textEncode
                   "up"%string (Sample.running Sample.calm) in
  (r, contents w 0%nat)
  = (Done true,
     Some [x6f; x6b; x6d; x79; x48; x61; x6e; x64; x6c; x65; x72; x3a; x20;
           x75; x70]).
Proof. vm_compute. reflexivity. Qed.

(** A default handler on a rolling file that cannot create its file:
    true is returned and the record is lost. *)
Example handler_loses_record :
  let '(r, w) := handler.Handle "up"%string
                   (handler.NewDefaultHandler Sample.fresh Sample.lineEncoder)
                   (Sample.start Sample.denying) in
  (fst <$> (match r with Done a => Some a | _ => None end), Sample.snapshot w)
  = (Some true,
     ([], [CreateCall "logs/20200304-145246-45.log" (inr (Errno 13))])).
Proof. vm_compute. reflexivity. Qed.

End Scenarios.
